(** * A shallow embedding of [backend/main.py]

    The natural-language query interpreter ([extract_location],
    [extract_search_params]), the summary generator
    ([generate_search_summary]), the per-record normaliser inside
    [search_zillow], and the orchestration of [search_properties] with
    [generate_location_overview], written as Rocq functions.

    Python strings are modelled as [string]; a character is a code point
    below 256, and the tables of Python's Unicode database (whitespace,
    upper case, lower-casing, decimal digits) are written out for that
    range.  Exceptions are explicit: a function that can raise returns a
    [result]. *)

From Stdlib Require Import ZArith NArith List String Ascii Bool Lia.
From Stdlib Require Import DecimalString Decimal DecimalZ DecimalN DecimalPos.
Import ListNotations.

Local Open Scope string_scope.
Local Open Scope Z_scope.

(** ** Exceptions and the error monad *)

Inductive exn : Type :=
| HTTPException (status_code : Z) (detail : message)
| ValueError
| TypeError
| AttributeError
| KeyError
| IndexError
| OverflowError
| ValidationError
| Timeout
| RequestException
with message : Type :=
| Text (s : string)
| TextExc (prefix : string) (cause : exn).   (* f"{prefix}{str(e)}" *)

Inductive result (A : Type) : Type :=
| Ok (a : A)
| Raise (e : exn).
Arguments Ok {A} a.
Arguments Raise {A} e.

Definition bind {A B} (m : result A) (k : A -> result B) : result B :=
  match m with
  | Ok a => k a
  | Raise e => Raise e
  end.

Notation "x <- m ;; k" := (bind m (fun x => k))
  (at level 61, m at next level, right associativity).

(** ** Characters (code points below 256) *)

Module Char.

Definition code (c : ascii) : N := N_of_ascii c.

Definition between (lo hi : N) (c : ascii) : bool :=
  ((lo <=? code c) && (code c <=? hi))%N.

(** [str.isspace] on one character; also the class [\s] of [re] and the
    characters removed by [str.strip()] and [str.split()]. *)
Definition isspace (c : ascii) : bool :=
  between 9 13 c || between 28 32 c
  || (code c =? 133)%N || (code c =? 160)%N.

(** [str.isupper] on one character. *)
Definition isupper (c : ascii) : bool :=
  between 65 90 c || between 192 214 c || between 216 222 c.

(** [str.lower] on one character. *)
Definition lower (c : ascii) : ascii :=
  if isupper c then ascii_of_N (code c + 32) else c.

(** the class [\d] of [re]. *)
Definition isdecimal (c : ascii) : bool := between 48 57 c.

(** the test "is the character [c]" *)
Definition eq (c : ascii) : ascii -> bool := fun x => Ascii.eqb x c.

(** the class [A-Za-z] of [re]. *)
Definition isalpha_ascii (c : ascii) : bool :=
  between 65 90 c || between 97 122 c.

End Char.

(** ** Strings *)

Module Str.

Fixpoint lower (s : string) : string :=
  match s with
  | EmptyString => EmptyString
  | String c s' => String (Char.lower c) (lower s')
  end.

(** [s.lstrip(...)] and [s.rstrip(...)], for the characters [p] holds of *)
Fixpoint lstrip_with (p : ascii -> bool) (s : string) : string :=
  match s with
  | String c s' => if p c then lstrip_with p s' else s
  | EmptyString => EmptyString
  end.

(** a character is kept when [p] does not hold of it or when something
    is kept after it *)
Fixpoint rstrip_with (p : ascii -> bool) (s : string) : string :=
  match s with
  | EmptyString => EmptyString
  | String c s' =>
      match rstrip_with p s' with
      | EmptyString => if p c then EmptyString else String c EmptyString
      | t => String c t
      end
  end.

Definition strip_with (p : ascii -> bool) (s : string) : string :=
  rstrip_with p (lstrip_with p s).

(** [s.strip()] *)
Definition strip (s : string) : string := strip_with Char.isspace s.

(** [s.split()]: the maximal runs of characters that are not white
    space.  [cur] is the run being read. *)
Fixpoint split_aux (s : string) (cur : string) : list string :=
  match s with
  | EmptyString => match cur with EmptyString => [] | _ => [cur] end
  | String c s' =>
      if Char.isspace c
      then match cur with
           | EmptyString => split_aux s' EmptyString
           | _ => cur :: split_aux s' EmptyString
           end
      else split_aux s' (cur ++ String c EmptyString)
  end.

Definition split (s : string) : list string := split_aux s EmptyString.

(** [sub in s] *)
Fixpoint contains (sub s : string) : bool :=
  prefix sub s ||
  match s with
  | EmptyString => false
  | String _ s' => contains sub s'
  end.

(** [s.replace(c, "")] for a one-character [c]. *)
Fixpoint remove (c : ascii) (s : string) : string :=
  match s with
  | EmptyString => EmptyString
  | String x s' => if Ascii.eqb x c then remove c s' else String x (remove c s')
  end.

(** [sep.join(parts)] *)
Fixpoint join (sep : string) (parts : list string) : string :=
  match parts with
  | [] => EmptyString
  | [p] => p
  | p :: rest => p ++ sep ++ join sep rest
  end.

(** truth value of a string: non-empty *)
Definition truthy (s : string) : bool :=
  match s with EmptyString => false | _ => true end.

End Str.

(** ** The fragment of [re] the program uses

    Every quantifier of the program's patterns applies to a
    one-character atom and there is one capture group, so a pattern is a
    list of quantified character tests with the two group marks.  The
    matcher is the backtracking one of [re]: greedy quantifiers, the
    alternatives tried in priority order, the first complete match
    kept. *)

Module Re.

Inductive quant := Once | Opt | Star | Plus.

Inductive node :=
| Item (p : ascii -> bool) (q : quant)
| GroupOpen
| GroupClose.

Definition regex := list node.

(** the text of group 1 so far *)
Inductive capture :=
| Before
| Inside (acc : string)
| Closed (g : string).

Definition push (g : capture) (c : ascii) : capture :=
  match g with
  | Inside acc => Inside (acc ++ String c EmptyString)
  | _ => g
  end.

Definition close (g : capture) : capture :=
  match g with
  | Inside acc => Closed acc
  | _ => g
  end.

Definition or_else {A} (x : option A) (y : option A) : option A :=
  match x with Some _ => x | None => y end.

(** match [r] at the start of the subject *)
Fixpoint match_here (r : regex) : string -> capture -> option capture :=
  match r with
  | [] => fun _ g => Some g
  | GroupOpen :: r' => fun s _ => match_here r' s (Inside EmptyString)
  | GroupClose :: r' => fun s g => match_here r' s (close g)
  | Item p q :: r' =>
      let k := match_here r' in
      let star :=
        fix star (s : string) (g : capture) : option capture :=
          match s with
          | String c s' =>
              if p c then or_else (star s' (push g c)) (k s g) else k s g
          | EmptyString => k s g
          end in
      match q with
      | Once => fun s g =>
          match s with
          | String c s' => if p c then k s' (push g c) else None
          | EmptyString => None
          end
      | Opt => fun s g =>
          match s with
          | String c s' =>
              if p c then or_else (k s' (push g c)) (k s g) else k s g
          | EmptyString => k s g
          end
      | Star => star
      | Plus => fun s g =>
          match s with
          | String c s' => if p c then star s' (push g c) else None
          | EmptyString => None
          end
      end
  end.

Definition group1 (g : capture) : string :=
  match g with
  | Closed t => t
  | Inside t => t
  | Before => EmptyString
  end.

(** [re.search(r, s)]: the match at the leftmost start position;
    the result is [match.group(1)]. *)
Fixpoint search (r : regex) (s : string) : option string :=
  match match_here r s Before with
  | Some g => Some (group1 g)
  | None =>
      match s with
      | EmptyString => None
      | String _ s' => search r s'
      end
  end.

(** atoms *)
Definition chr (c : ascii) : ascii -> bool := Char.eq c.
(** a literal character under [re.IGNORECASE] *)
Definition chr_i (c : ascii) : ascii -> bool :=
  fun x => Ascii.eqb (Char.lower x) (Char.lower c).

Fixpoint lit (s : string) : regex :=
  match s with
  | EmptyString => []
  | String c s' => Item (chr c) Once :: lit s'
  end.

Fixpoint lit_i (s : string) : regex :=
  match s with
  | EmptyString => []
  | String c s' => Item (chr_i c) Once :: lit_i s'
  end.

End Re.

(** ** [extract_location] *)

(** the class [[A-Za-z\s,]] *)
Definition location_char (c : ascii) : bool :=
  Char.isalpha_ascii c || Char.isspace c || Ascii.eqb c ",".

(** [r'in ([A-Za-z\s,]+)'] and its two siblings, under [re.IGNORECASE] *)
Definition location_pattern (word : string) : Re.regex :=
  (Re.lit_i word ++ Re.lit_i " "
    ++ [Re.GroupOpen; Re.Item location_char Re.Plus; Re.GroupClose])%list.

Definition location_patterns : list Re.regex :=
  [ location_pattern "in"; location_pattern "at"; location_pattern "near" ].

(** "Add state if not present for common cities" *)
Definition add_state (location : string) : string :=
  if Str.contains "," location then location
  else
    let location_lower := Str.lower location in
    let named (city : string) := String.eqb location_lower city in
    if named "boston" then location ++ ", MA"
    else if named "new york" || named "nyc" then location ++ ", NY"
    else if named "miami" then location ++ ", FL"
    else if named "chicago" then location ++ ", IL"
    else if named "los angeles" then location ++ ", CA"
    else if named "princeville" || named "kapaa" || named "poipu" || named "kauai"
         then location ++ ", HI"
    else location.

(** the [for pattern in location_patterns] loop: the first pattern that
    matches returns *)
Fixpoint first_location (patterns : list Re.regex) (query : string)
  : option string :=
  match patterns with
  | [] => None
  | pattern :: rest =>
      match Re.search pattern query with
      | Some g => Some (add_state (Str.strip g))
      | None => first_location rest query
      end
  end.

Definition missing_location : exn :=
  HTTPException 400
    (Text "Please specify a location in your search query (e.g., 'in Boston' or 'near Chicago')").

Definition extract_location (query : string) : result string :=
  match first_location location_patterns query with
  | Some location => Ok location
  | None =>
      match Str.split query with
      | String c rest :: _ =>
          if Char.isupper c then Ok (String c rest) else Raise missing_location
      | _ => Raise missing_location
      end
  end.


(** ** Python numbers

    An [int] is a [Z].  A [float] is an IEEE binary64 value, kept as a
    sign, a mantissa and a binary exponent; every operation rounds the
    exact rational result to the nearest double, ties to even. *)

Module Float.

Inductive t :=
| Nan
| Inf (neg : bool)
| Fin (neg : bool) (m : Z) (e : Z).     (* (-1)^neg * m * 2^e, 0 <= m *)

(** [n/d] divided by [2^e], as a fraction *)
Definition scale (n d e : Z) : Z * Z :=
  if 0 <=? e then (n, d * 2 ^ e) else (n * 2 ^ (- e), d).

(** the [l] with [2^l <= n/d < 2^(l+1)], for [0 < n], [0 < d] *)
Definition floor_log2 (n d : Z) : Z :=
  let l := Z.log2 n - Z.log2 d in
  let '(n', d') := scale n d l in
  if n' <? d' then l - 1 else l.

(** the double nearest to [n/d] ([0 <= n], [0 < d]), ties to even;
    53 bits of mantissa, least exponent -1074, overflow to infinity *)
Definition of_ratio (neg : bool) (n d : Z) : t :=
  if n <=? 0 then Fin neg 0 0
  else
    let e := Z.max (floor_log2 n d - 52) (-1074) in
    let '(n', d') := scale n d e in
    let q := n' / d' in
    let r := n' mod d' in
    let m := if (d' <? 2 * r) || ((2 * r =? d') && Z.odd q) then q + 1 else q in
    if (0 <=? e) && (2 ^ 1024 <=? m * 2 ^ e) then Inf neg else Fin neg m e.

Definition is_zero (x : t) : bool :=
  match x with Fin _ m _ => m =? 0 | _ => false end.

(** [x == y] *)
Definition eqb (x y : t) : bool :=
  match x, y with
  | Inf a, Inf b => Bool.eqb a b
  | Fin a m e, Fin b n f =>
      if (m =? 0) || (n =? 0) then (m =? 0) && (n =? 0)
      else Bool.eqb a b
           && (let k := Z.min e f in m * 2 ^ (e - k) =? n * 2 ^ (f - k))
  | _, _ => false
  end.

(** [x * y] *)
Definition mul (x y : t) : t :=
  match x, y with
  | Nan, _ | _, Nan => Nan
  | Inf a, Inf b => Inf (xorb a b)
  | Inf a, Fin b m _ | Fin b m _, Inf a =>
      if m =? 0 then Nan else Inf (xorb a b)
  | Fin a m e, Fin b n f =>
      let '(p, d) := scale (m * n) 1 (- (e + f)) in
      of_ratio (xorb a b) p d
  end.

(** [float(z)] for an [int] *)
Definition of_int (z : Z) : result t :=
  match of_ratio (z <? 0) (Z.abs z) 1 with
  | Inf _ => Raise OverflowError
  | x => Ok x
  end.

(** [int(x)]: truncation towards zero *)
Definition to_int (x : t) : result Z :=
  match x with
  | Nan => Raise ValueError
  | Inf _ => Raise OverflowError
  | Fin neg m e =>
      let a := if 0 <=? e then m * 2 ^ e else m / 2 ^ (- e) in
      Ok (if neg then - a else a)
  end.

(** *** [float(s)] for a string *)

Definition isdigit (c : ascii) : bool := Char.isdecimal c.

(** the longest prefix of characters satisfying [p], and the rest *)
Fixpoint span (p : ascii -> bool) (s : string) : string * string :=
  match s with
  | String c s' =>
      if p c then let '(a, b) := span p s' in (String c a, b)
      else (EmptyString, s)
  | EmptyString => (EmptyString, EmptyString)
  end.

(** the number a string of decimal digits denotes *)
Definition digits (s : string) : Z :=
  match NilEmpty.uint_of_string s with
  | Some d => Z.of_uint d
  | None => 0
  end.

Definition take_sign (s : string) : bool * string :=
  match s with
  | String "-" r => (true, r)
  | String "+" r => (false, r)
  | _ => (false, s)
  end.

(** digits [. digits] [e [sign] digits], at least one digit before the
    exponent: the mantissa digits as a number and the power of ten *)
Definition parse_decimal (s : string) : option (Z * Z) :=
  let '(ip, r1) := span isdigit s in
  let '(fp, r2) :=
    match r1 with
    | String "." r => span isdigit r
    | _ => (EmptyString, r1)
    end in
  let frac := Z.of_nat (String.length fp) in
  if (ip ++ fp =? "")%string then None
  else
    match r2 with
    | EmptyString => Some (digits (ip ++ fp), - frac)
    | String c r3 =>
        if Ascii.eqb (Char.lower c) "e" then
          let '(eneg, r4) := take_sign r3 in
          let '(ed, r5) := span isdigit r4 in
          if (ed =? "")%string || negb (r5 =? "")%string then None
          else Some (digits (ip ++ fp),
                     (if eneg then - digits ed else digits ed) - frac)
        else None
    end.

(** the double nearest to [n * 10^k] *)
Definition of_decimal (neg : bool) (n k : Z) : t :=
  if 0 <=? k then of_ratio neg (n * 10 ^ k) 1
  else of_ratio neg n (10 ^ (- k)).

(** an underscore stands between two digits only *)
Fixpoint underscores_ok (prev : ascii) (s : string) : bool :=
  match s with
  | EmptyString => negb (Ascii.eqb prev "_")
  | String c s' =>
      (if Ascii.eqb c "_" then isdigit prev
       else negb (Ascii.eqb prev "_") || isdigit c)
      && underscores_ok c s'
  end.

(** the white space [float] skips at both ends: the ASCII white space
    and, of the code points from 128, those of [str.isspace] *)
Definition isspace (c : ascii) : bool :=
  Char.between 9 13 c || (Char.code c =? 32)%N
  || (Char.code c =? 133)%N || (Char.code c =? 160)%N.

(** the text after the sign: a name of a special value, or a decimal *)
Definition of_unsigned (neg : bool) (body : string) : result t :=
  let word := Str.lower body in
  if (word =? "inf")%string || (word =? "infinity")%string then Ok (Inf neg)
  else if (word =? "nan")%string then Ok Nan
  else match parse_decimal body with
       | Some (n, k) => Ok (of_decimal neg n k)
       | None => Raise ValueError
       end.

(** [float(s)] *)
Definition of_string (s : string) : result t :=
  let s := Str.strip_with isspace s in
  if negb (underscores_ok "000" s) then Raise ValueError
  else
    let '(neg, body) := take_sign (Str.remove "_" s) in
    of_unsigned neg body.

(** *** [repr(x)]: the shortest decimal string that reads back as [x] *)

(** [10^E <= n/d] *)
Definition le_pow10 (E n d : Z) : bool :=
  if 0 <=? E then d * 10 ^ E <=? n else d <=? n * 10 ^ (- E).

Fixpoint ilog10_up (fuel : nat) (E n d : Z) : Z :=
  match fuel with
  | O => E
  | S f => if le_pow10 (E + 1) n d then ilog10_up f (E + 1) n d else E
  end.

(** the [E] with [10^E <= n/d < 10^(E+1)], for the value of a double *)
Definition ilog10 (n d : Z) : Z :=
  ilog10_up 6 ((Z.log2 n - Z.log2 d - 1) * 30103 / 100000 - 1) n d.

(** the decimals [D * 10^g] with [p] digits next to [n/d] that read
    back as [x]; the nearer one when both do *)
Definition candidate (x : t) (n d E : Z) (p : Z) : option (Z * Z) :=
  let g := E - p + 1 in
  let '(n', d') := if 0 <=? g then (n, d * 10 ^ g) else (n * 10 ^ (- g), d) in
  let lo := n' / d' in
  let r := n' mod d' in
  let ok c := eqb (of_decimal false c g) x in
  let low_first := (2 * r <? d') || ((2 * r =? d') && Z.even lo) in
  match ok lo, ok (lo + 1) with
  | true, true => Some (if low_first then lo else lo + 1, g)
  | true, false => Some (lo, g)
  | false, true => Some (lo + 1, g)
  | false, false => None
  end.

Fixpoint shortest (fuel : nat) (x : t) (n d E : Z) (p : Z) : Z * Z :=
  match fuel with
  | O => (0, 0)
  | S f =>
      match candidate x n d E p with
      | Some c => c
      | None => shortest f x n d E (p + 1)
      end
  end.

Fixpoint zeros (k : nat) : string :=
  match k with O => EmptyString | S k' => String "0" (zeros k') end.

Definition repr_exponent (e10 : Z) : string :=
  let a := NilZero.string_of_int (Z.to_int (Z.abs e10)) in
  (if e10 <? 0 then "-" else "+")
    ++ (if Z.abs e10 <? 10 then "0" ++ a else a).

(** the digits [ds] with the decimal point after [decpt] of them *)
Definition repr_digits (ds : string) (decpt : Z) : string :=
  let nd := Z.of_nat (String.length ds) in
  if (decpt <=? -4) || (16 <? decpt) then
    match ds with
    | String d1 rest =>
        String d1 (match rest with EmptyString => "" | _ => "." ++ rest end)
          ++ "e" ++ repr_exponent (decpt - 1)
    | EmptyString => EmptyString
    end
  else if decpt <=? 0 then "0." ++ zeros (Z.to_nat (- decpt)) ++ ds
  else if nd <=? decpt then ds ++ zeros (Z.to_nat (decpt - nd)) ++ ".0"
  else substring 0 (Z.to_nat decpt) ds ++ "."
         ++ substring (Z.to_nat decpt) (Z.to_nat (nd - decpt)) ds.

Definition repr (x : t) : string :=
  match x with
  | Nan => "nan"
  | Inf neg => if neg then "-inf" else "inf"
  | Fin neg m e =>
      (if neg then "-" else "") ++
      (if m =? 0 then "0.0"
       else
         let '(n, d) := scale m 1 (- e) in
         let '(D, g) := shortest 17 (Fin false m e) n d (ilog10 n d) 1 in
         let all := NilZero.string_of_int (Z.to_int D) in
         repr_digits (Str.rstrip_with (Char.eq "0") all) (Z.of_nat (String.length all) + g))
  end.

End Float.

(** [str(z)] for an [int] *)
Definition str_int (z : Z) : string := NilZero.string_of_int (Z.to_int z).

(** [format(z, ",")]: the decimal digits in groups of three *)
Fixpoint group3 (digits : list ascii) : list ascii :=
  match digits with
  | a :: b :: c :: (_ :: _) as rest => a :: b :: c :: "," %char :: group3 rest
  | _ => digits
  end.

Definition format_commas (z : Z) : string :=
  let body := string_of_list_ascii
                (List.rev (group3 (List.rev (list_ascii_of_string (str_int (Z.abs z)))))) in
  if z <? 0 then String "-" body else body.


(** ** [extract_search_params] *)

(** the [criteria] dictionary; [None] is Python's [None] *)
Record criteria := mk_criteria {
  location : option string;
  min_price : option string;
  max_price : option string;
  property_type : option string
}.

Definition extract_property_type (query_lower : string) : string :=
  if Str.contains "land" query_lower || Str.contains "lot" query_lower
  then "LAND"
  else if Str.contains "condo" query_lower then "CONDO"
  else if Str.contains "townhouse" query_lower
          || Str.contains "town house" query_lower
  then "TOWNHOUSE"
  else if Str.contains "multi" query_lower
          || Str.contains "multi-family" query_lower
  then "MULTI_FAMILY"
  else "SINGLE_FAMILY".

(** the group [\d+\.?\d*] followed by [\s*million], and the group
    [\d+,?\d*] *)
Definition number_million : Re.regex :=
  ([Re.GroupOpen; Re.Item Char.isdecimal Re.Plus; Re.Item (Re.chr ".") Re.Opt;
    Re.Item Char.isdecimal Re.Star; Re.GroupClose;
    Re.Item Char.isspace Re.Star] ++ Re.lit "million")%list.

Definition number_plain : Re.regex :=
  [Re.GroupOpen; Re.Item Char.isdecimal Re.Plus; Re.Item (Re.chr ",") Re.Opt;
   Re.Item Char.isdecimal Re.Star; Re.GroupClose].

(** the prefixes [under ?\$?], [less than ?\$?] and [\$?] *)
Definition optional (c : ascii) : Re.node := Re.Item (Re.chr c) Re.Opt.

Definition under : Re.regex :=
  (Re.lit "under" ++ [optional " "; optional "$"])%list.

Definition less_than : Re.regex :=
  (Re.lit "less than" ++ [optional " "; optional "$"])%list.

Definition dollar : Re.regex := [optional "$"].

(** [lambda x: float(x) * 1000000] *)
Definition times_million (x : string) : result Float.t :=
  f <- Float.of_string x ;;
  m <- Float.of_int 1000000 ;;
  Ok (Float.mul f m).

(** [lambda x: float(x.replace(',', ''))] *)
Definition as_is (x : string) : result Float.t :=
  Float.of_string (Str.remove "," x).

(** the six patterns, in the order of the source: "under" with a number
    of millions, "under" with a plain number, the same two after
    "less than", the same two after nothing but an optional "$" *)
Definition price_patterns : list (Re.regex * (string -> result Float.t)) :=
  [ ((under ++ number_million)%list, times_million);
    ((under ++ number_plain)%list, as_is);
    ((less_than ++ number_million)%list, times_million);
    ((less_than ++ number_plain)%list, as_is);
    ((dollar ++ number_million)%list, times_million);
    ((dollar ++ number_plain)%list, as_is) ].

(** the body of the [try]: [str(int(converter(match.group(1))))] *)
Definition convert_price (converter : string -> result Float.t) (g : string)
  : result string :=
  price <- converter g ;;
  n <- Float.to_int price ;;
  Ok (str_int n).

(** the [for pattern, converter in price_patterns] loop: [break] at the
    first match whose conversion does not raise, [continue] otherwise *)
Fixpoint first_price (patterns : list (Re.regex * (string -> result Float.t)))
  (query_lower : string) : option string :=
  match patterns with
  | [] => None
  | (pattern, converter) :: rest =>
      match Re.search pattern query_lower with
      | Some g =>
          match convert_price converter g with
          | Ok price => Some price
          | Raise _ => first_price rest query_lower
          end
      | None => first_price rest query_lower
      end
  end.

Definition extract_search_params (query : string) : result criteria :=
  let query_lower := Str.lower query in
  loc <- extract_location query ;;
  Ok {| location := Some loc;
        min_price := None;
        max_price := first_price price_patterns query_lower;
        property_type := Some (extract_property_type query_lower) |}.

(** ** [generate_search_summary] *)

(** truth value of a dictionary entry *)
Definition present (v : option string) : bool :=
  match v with
  | Some s => Str.truthy s
  | None => false
  end.

(** [f"{v}"] *)
Definition fmt (v : option string) : string :=
  match v with
  | Some s => s
  | None => "None"
  end.

Definition property_type_display : list (string * string) :=
  [ ("SINGLE_FAMILY", "single-family homes");
    ("CONDO", "condominiums");
    ("TOWNHOUSE", "townhouses");
    ("MULTI_FAMILY", "multi-family homes");
    ("LAND", "land") ].

(** [d.get(key, default)] *)
Fixpoint get_default {A} (d : list (string * A)) (key : string) (default : A) : A :=
  match d with
  | [] => default
  | (k, v) :: rest => if String.eqb k key then v else get_default rest key default
  end.

(** [parts[0] = v] *)
Definition set_first (parts : list string) (v : string) : result (list string) :=
  match parts with
  | [] => Raise IndexError
  | _ :: rest => Ok (v :: rest)
  end.

(** [int(float(p.replace("$", "").replace(",", "")))] *)
Definition price_number (p : option string) : result Z :=
  x <- Float.of_string (Str.remove "," (Str.remove "$" (fmt p))) ;;
  Float.to_int x.

Definition generate_search_summary (search_criteria : criteria) : result string :=
  let loc := location search_criteria in
  let summary_parts :=
    if present loc then ["Looking for properties in " ++ fmt loc] else [] in
  summary_parts <-
    (if present (property_type search_criteria) then
       let prop_type :=
         get_default property_type_display
           (fmt (property_type search_criteria)) "properties" in
       set_first summary_parts ("Looking for " ++ prop_type ++ " in " ++ fmt loc)
     else Ok summary_parts) ;;
  summary_parts <-
    (if present (min_price search_criteria) && present (max_price search_criteria)
     then
       lo <- price_number (min_price search_criteria) ;;
       hi <- price_number (max_price search_criteria) ;;
       Ok (List.app summary_parts
             ["priced between $" ++ format_commas lo
                ++ " and $" ++ format_commas hi])
     else if present (min_price search_criteria) then
       lo <- price_number (min_price search_criteria) ;;
       Ok (List.app summary_parts ["priced above $" ++ format_commas lo])
     else if present (max_price search_criteria) then
       hi <- price_number (max_price search_criteria) ;;
       Ok (List.app summary_parts ["priced under $" ++ format_commas hi])
     else Ok summary_parts) ;;
  Ok (Str.join " " summary_parts).

Local Set Warnings "-register-all".

(** ** Decoded JSON: what [response.json()] returns

    An object is the list of its items in insertion order, with distinct
    keys; [JNull] is Python's [None]. *)

Inductive json :=
| JNull
| JBool (b : bool)
| JInt (z : Z)
| JFloat (x : Float.t)
| JStr (s : string)
| JArr (items : list json)
| JObj (fields : list (string * json)).

Module Py.

(** [bool(v)] *)
Definition truthy (v : json) : bool :=
  match v with
  | JNull => false
  | JBool b => b
  | JInt z => negb (z =? 0)
  | JFloat x => negb (Float.is_zero x)
  | JStr s => Str.truthy s
  | JArr items => match items with [] => false | _ => true end
  | JObj fields => match fields with [] => false | _ => true end
  end.

(** the double quote *)
Definition dquote : ascii := ascii_of_N 34.

Definition hex_digit (n : N) : ascii :=
  ascii_of_N (if (n <? 10)%N then 48 + n else 87 + n).

(** one character of [repr(s)] inside the quote [q] *)
Definition repr_char (q c : ascii) : string :=
  let n := Char.code c in
  if Ascii.eqb c "\" then "\\"
  else if Ascii.eqb c q then String "\" (String c "")
  else if (n =? 9)%N then "\t"
  else if (n =? 10)%N then "\n"
  else if (n =? 13)%N then "\r"
  else if (n <? 32)%N || ((127 <=? n) && (n <=? 160))%N || (n =? 173)%N
  then "\x" ++ String (hex_digit (n / 16)) (String (hex_digit (n mod 16)) "")
  else String c "".

Definition has_char (c : ascii) (s : string) : bool :=
  Str.contains (String c "") s.

(** [repr(s)] for a string *)
Definition repr_str (s : string) : string :=
  let q : ascii := if has_char "'" s && negb (has_char dquote s)
                   then dquote else "'"%char in
  String q (String.concat "" (map (repr_char q) (list_ascii_of_string s)))
    ++ String q "".

(** [repr(v)] *)
Fixpoint repr (v : json) : string :=
  match v with
  | JNull => "None"
  | JBool b => if b then "True" else "False"
  | JInt z => str_int z
  | JFloat x => Float.repr x
  | JStr s => repr_str s
  | JArr items => "[" ++ Str.join ", " (map repr items) ++ "]"
  | JObj fields =>
      "{" ++ Str.join ", "
               (map (fun kv => let '(k, x) := kv in repr_str k ++ ": " ++ repr x)
                  fields)
          ++ "}"
  end.

(** [str(v)], which is also [f"{v}"] *)
Definition str (v : json) : string :=
  match v with
  | JStr s => s
  | _ => repr v
  end.

(** [type(v)], printed *)
Definition type_name (v : json) : string :=
  match v with
  | JNull => "<class 'NoneType'>"
  | JBool _ => "<class 'bool'>"
  | JInt _ => "<class 'int'>"
  | JFloat _ => "<class 'float'>"
  | JStr _ => "<class 'str'>"
  | JArr _ => "<class 'list'>"
  | JObj _ => "<class 'dict'>"
  end.

Fixpoint lookup (fields : list (string * json)) (key : string) : option json :=
  match fields with
  | [] => None
  | (k, x) :: rest => if String.eqb k key then Some x else lookup rest key
  end.

(** [v.get(key, default)]; only a dictionary has [get] *)
Definition get (v : json) (key : string) (default : json) : result json :=
  match v with
  | JObj fields =>
      Ok (match lookup fields key with Some x => x | None => default end)
  | _ => Raise AttributeError
  end.

(** [v[key]] for a string key *)
Definition item (v : json) (key : string) : result json :=
  match v with
  | JObj fields =>
      match lookup fields key with Some x => Ok x | None => Raise KeyError end
  | _ => Raise TypeError
  end.

(** [v[0]] *)
Definition item0 (v : json) : result json :=
  match v with
  | JArr (x :: _) => Ok x
  | JArr [] => Raise IndexError
  | JStr (String c _) => Ok (JStr (String c ""))
  | JStr EmptyString => Raise IndexError
  | JObj _ => Raise KeyError
  | _ => Raise TypeError
  end.

(** [float(v)] *)
Definition float (v : json) : result Float.t :=
  match v with
  | JStr s => Float.of_string s
  | JInt z => Float.of_int z
  | JBool b => Float.of_int (if b then 1 else 0)
  | JFloat x => Ok x
  | _ => Raise TypeError
  end.

(** [v.strip()]; only a string has [strip] *)
Definition strip (v : json) : result string :=
  match v with
  | JStr s => Ok (Str.strip s)
  | _ => Raise AttributeError
  end.

(** the values [for x in v] goes through *)
Definition iter (v : json) : result (list json) :=
  match v with
  | JArr items => Ok items
  | JObj fields => Ok (map (fun kv => JStr (fst kv)) fields)
  | JStr s => Ok (map (fun c => JStr (String c "")) (list_ascii_of_string s))
  | _ => Raise TypeError
  end.

End Py.

(** ** The listing model and the normaliser of [search_zillow] *)

Module Property.
(** [class Property(BaseModel)] *)
Record t := make {
  id : string;
  title : string;
  price : Z;
  location : string;
  summary : string;
  image_url : string;
  features : list string
}.
End Property.

(** validation of a [str] field of the model: a string is required *)
Definition validate_str (v : json) : result string :=
  match v with
  | JStr s => Ok s
  | _ => Raise ValidationError
  end.

(** [if prop.get(key): features.append(f"{prop[key]} {unit}")] *)
Definition feature (prop : json) (key unit : string) : result (list string) :=
  v <- Py.get prop key JNull ;;
  if Py.truthy v then
    x <- Py.item prop key ;;
    Ok [Py.str x ++ " " ++ unit]
  else Ok [].

(** the body of the [try] inside [for prop in properties_data] *)
Definition process_property (location : string) (prop : json)
  : result Property.t :=
  price_str <- Py.get prop "price" (JStr "0") ;;
  let price_str :=
    match price_str with
    | JStr s => JStr (Str.remove "," (Str.remove "$" s))
    | other => other
    end in
  price_float <- Py.float price_str ;;
  price <- Float.to_int price_float ;;
  bedrooms <- feature prop "bedrooms" "bedrooms" ;;
  bathrooms <- feature prop "bathrooms" "bathrooms" ;;
  living_area <- feature prop "livingArea" "sqft" ;;
  let features := (bedrooms ++ bathrooms ++ living_area)%list in
  home_type <- Py.get prop "homeType" (JStr "Property") ;;
  prop_type <- Py.get prop "propertyType" home_type ;;
  street <- (v <- Py.get prop "streetAddress" (JStr "") ;; Py.strip v) ;;
  city <- (v <- Py.get prop "city" (JStr "") ;; Py.strip v) ;;
  state <- (v <- Py.get prop "state" (JStr "") ;; Py.strip v) ;;
  let location_str := Str.join ", " (filter Str.truthy [street; city; state]) in
  generic_id <- Py.get prop "id" (JStr "") ;;
  zpid <- Py.get prop "zpid" generic_id ;;
  title_city <- Py.get prop "city" (JStr location) ;;
  beds <- Py.get prop "bedrooms" (JStr "N/A") ;;
  baths <- Py.get prop "bathrooms" (JStr "N/A") ;;
  image_alias <- Py.get prop "imageUrl" (JStr "") ;;
  image <- Py.get prop "imgSrc" image_alias ;;
  image_url <- validate_str image ;;
  Ok {| Property.id := Py.str zpid;
        Property.title := Py.str prop_type ++ " in " ++ Py.str title_city;
        Property.price := price;
        Property.location := location_str;
        Property.summary :=
          Py.str prop_type ++ " with " ++ Py.str beds ++ " beds, "
            ++ Py.str baths ++ " baths";
        Property.image_url := image_url;
        Property.features := features |}.

(** the loop: a record whose body raises is logged and skipped *)
Fixpoint process_properties (location : string) (properties_data : list json)
  : list Property.t :=
  match properties_data with
  | [] => []
  | prop :: rest =>
      match process_property location prop with
      | Ok property_data => property_data :: process_properties location rest
      | Raise _ => process_properties location rest
      end
  end.

(** ** The outside world

    What a network call comes back with: an exception of [requests], or a
    response with its status code, its text and the value of
    [response.json()] ([None] when that raises). *)

Inductive http_outcome :=
| TimedOut
| Failed
| Response (status_code : Z) (text : string) (body : option json).

Record world := mk_world {
  (** [requests.get] on the listing provider, from the query parameters *)
  zillow : list (string * string) -> http_outcome;
  (** [requests.post] on the text-generation provider, from the prompt *)
  groq : string -> http_outcome;
  (** [datetime.now().strftime("%Y%m%d-%H%M%S")] *)
  timestamp : string;
  (** whether the page can be rendered and written to [static_pages] *)
  writable : bool
}.

(** ** [search_zillow] *)

Definition property_type_map : list (string * string) :=
  [ ("SINGLE_FAMILY", "Houses");
    ("CONDO", "Condos");
    ("TOWNHOUSE", "Townhomes");
    ("MULTI_FAMILY", "Multi-family");
    ("LAND", "Lots_Land") ].

Definition zillow_params (location : string) (min_price max_price : option string)
  (property_type : string) : list (string * string) :=
  ([("location", location); ("status_type", "ForSale"); ("sort", "Price_High_Low")]
   ++ (let zillow_property_type := get_default property_type_map property_type "" in
       if Str.truthy zillow_property_type
       then [("home_type", zillow_property_type)] else [])
   ++ (if present min_price then [("price_min", fmt min_price)] else [])
   ++ (if present max_price then [("price_max", fmt max_price)] else []))%list.

(** the body of the outer [try] *)
Definition search_zillow_body (outcome : http_outcome) (location : string)
  : result (list Property.t) :=
  match outcome with
  | TimedOut => Raise Timeout
  | Failed => Raise RequestException
  | Response status_code text body =>
      if (400 <=? status_code) && (status_code <? 600) then
        if status_code =? 401 then
          Raise (HTTPException 500 (Text "Invalid Zillow API credentials"))
        else if status_code =? 429 then
          Raise (HTTPException 429 (Text "Too many requests to Zillow API"))
        else
          Raise (HTTPException status_code (Text ("Zillow API error: " ++ text)))
      else
        match body with
        | None =>
            Raise (HTTPException 500 (Text "Invalid response format from Zillow API"))
        | Some (JObj fields as results) =>
            match Py.lookup fields "error" with
            | Some err =>
                error_msg <- Py.get err "message" (JStr "Unknown API error") ;;
                Raise (HTTPException 400
                         (Text ("Zillow API error: " ++ Py.str error_msg)))
            | None =>
                alias <- Py.get results "results" (JArr []) ;;
                properties_data <- Py.get results "props" alias ;;
                if negb (Py.truthy properties_data) then
                  Raise (HTTPException 404
                           (Text ("No properties found in " ++ location)))
                else
                  items <- Py.iter properties_data ;;
                  Ok (process_properties location items)
            end
        | Some results =>
            Raise (HTTPException 500
                     (Text ("Invalid response type from Zillow API: "
                              ++ Py.type_name results)))
        end
  end.

(** the three [except] clauses of the outer [try] *)
Definition search_zillow (w : world) (location : string)
  (min_price max_price : option string) (property_type : string)
  : result (list Property.t) :=
  let outcome := zillow w (zillow_params location min_price max_price property_type) in
  match search_zillow_body outcome location with
  | Ok properties => Ok properties
  | Raise Timeout =>
      Raise (HTTPException 504 (Text "Zillow API request timed out"))
  | Raise RequestException =>
      Raise (HTTPException 500 (TextExc "Error fetching properties: " RequestException))
  | Raise e => Raise (HTTPException 500 (TextExc "Unexpected error: " e))
  end.

(** ** [generate_location_overview] *)

(** [s.split(",")] *)
Fixpoint split_comma (s : string) (cur : string) : list string :=
  match s with
  | EmptyString => [cur]
  | String c s' =>
      if Ascii.eqb c "," then cur :: split_comma s' EmptyString
      else split_comma s' (cur ++ String c EmptyString)
  end.

Definition overview_prompt (location : string) : string :=
  let parts := split_comma location EmptyString in
  let city := Str.strip (hd EmptyString parts) in
  let state := match parts with _ :: p :: _ => Str.strip p | _ => EmptyString end in
  "Generate a concise overview of " ++ city
    ++ (if Str.truthy state then ", " ++ state else EmptyString)
    ++ " covering:
1. Brief history
2. Population and demographics
3. Education (schools and universities)
4. Economy and job market
5. Quality of life (climate, culture, amenities)

Format as markdown with sections. Keep it factual and concise.".

(** the body of the [try]: the text of the first choice on status 200,
    [None] on another status *)
Definition location_overview_body (outcome : http_outcome) : result json :=
  match outcome with
  | TimedOut => Raise Timeout
  | Failed => Raise RequestException
  | Response status_code _ body =>
      if status_code =? 200 then
        match body with
        | None => Raise ValueError
        | Some answer =>
            choices <- Py.item answer "choices" ;;
            choice <- Py.item0 choices ;;
            msg <- Py.item choice "message" ;;
            Py.item msg "content"
        end
      else Ok JNull
  end.

(** [except Exception: return None] *)
Definition generate_location_overview (w : world) (location : string) : json :=
  match location_overview_body (groq w (overview_prompt location)) with
  | Ok overview => overview
  | Raise _ => JNull
  end.

(** ** [generate_static_page] *)

Definition slug_char (c : ascii) : bool :=
  Char.between 97 122 c || Char.between 48 57 c.

(** [re.sub(p+, '-', s)] for a one-character class [p] *)
Fixpoint sub_runs (p : ascii -> bool) (in_run : bool) (s : string) : string :=
  match s with
  | EmptyString => EmptyString
  | String c s' =>
      if p c then
        if in_run then sub_runs p true s' else String "-" (sub_runs p true s')
      else String c (sub_runs p false s')
  end.

Definition url_query (search_query : string) : string :=
  let q := Str.lower search_query in
  let q := sub_runs (fun c => negb (slug_char c)) false q in
  let q := sub_runs (fun c => Ascii.eqb c "-") false q in
  Str.strip_with (Char.eq "-") q.

Definition generate_static_page (w : world) (properties : list Property.t)
  (search_query search_summary : string) : option string :=
  if writable w then
    Some ("/static/" ++ timestamp w ++ "-" ++ url_query search_query ++ ".html")
  else None.

(** ** [search_properties] *)

Record search_response := mk_response {
  results : list Property.t;
  static_page_url : option string;
  search_summary : string;
  location_overview : json
}.

Definition search_properties_body (w : world) (query : string)
  : result search_response :=
  search_criteria <- extract_search_params query ;;
  if negb (present (location search_criteria)) then
    Raise (HTTPException 400 (Text "Please specify a location in your search query"))
  else
    summary <- generate_search_summary search_criteria ;;
    let overview := generate_location_overview w (fmt (location search_criteria)) in
    match search_zillow w (fmt (location search_criteria))
            (min_price search_criteria) (max_price search_criteria)
            (fmt (property_type search_criteria)) with
    | Ok properties =>
        match properties with
        | [] => Ok {| results := []; static_page_url := None;
                      search_summary := summary; location_overview := overview |}
        | _ =>
            Ok {| results := properties;
                  static_page_url := generate_static_page w properties query summary;
                  search_summary := summary;
                  location_overview := overview |}
        end
    | Raise (HTTPException status_code detail) =>
        Raise (HTTPException status_code detail)
    | Raise e =>
        Raise (HTTPException 500 (TextExc "Error searching properties: " e))
    end.

Definition search_properties (w : world) (query : string) : result search_response :=
  match search_properties_body w query with
  | Ok response => Ok response
  | Raise (HTTPException status_code detail) =>
      Raise (HTTPException status_code detail)
  | Raise e => Raise (HTTPException 500 (TextExc "Unexpected error: " e))
  end.

(** * Vocabulary of the statements *)

Definition chicago_query : string := "condos near Chicago under 500000".
Definition boston_query : string := "homes under 2 million in Boston".

(** no prepositional pattern matches the query *)
Definition no_preposition (query : string) : Prop :=
  Re.search (location_pattern "in") query = None
  /\ Re.search (location_pattern "at") query = None
  /\ Re.search (location_pattern "near") query = None.

(** what one entry of [price_patterns] yields on the lower-cased query:
    the price text when the pattern matches and the conversion does not
    raise *)
Definition parsed_match (entry : Re.regex * (string -> result Float.t))
  (query_lower : string) : option string :=
  match Re.search (fst entry) query_lower with
  | Some g =>
      match convert_price (snd entry) g with
      | Ok price => Some price
      | Raise _ => None
      end
  | None => None
  end.

(** the same for the entry at position [i] of [price_patterns] *)
Definition parsed_at (i : nat) (query_lower : string) : option string :=
  match nth_error price_patterns i with
  | Some entry => parsed_match entry query_lower
  | None => None
  end.

(** positions 0, 2 and 4 hold the "million" patterns, 1, 3 and 5 the
    bare-number ones *)
Definition million_pattern (i : nat) : bool := Nat.even i && (i <? 6)%nat.
Definition plain_pattern (i : nat) : bool := Nat.odd i && (i <? 6)%nat.

Fixpoint all_digits (s : string) : bool :=
  match s with
  | EmptyString => true
  | String c s' => Float.isdigit c && all_digits s'
  end.

(** a whole number that a double holds exactly: at most 53 significant
    bits, below [2^1024] *)
Definition double_int (n : Z) : bool :=
  (0 <=? n)
  && (let l := Z.log2 n in
      (l <=? 52) || ((n mod 2 ^ (l - 52) =? 0) && (l <? 1024))).

(** a double: a mantissa of at most 53 bits and a value below [2^1024];
    [Float.of_ratio] returns no other *)
Definition double (x : Float.t) : Prop :=
  match x with
  | Float.Fin _ m e => 0 <= m <= 2 ^ 53 /\ (0 <= e -> m * 2 ^ e < 2 ^ 1024)
  | _ => True
  end.

(** the fixed table of plural nouns, as the specification words it *)
Definition plural_noun (property_type : option string) : string :=
  match property_type with
  | Some t =>
      if String.eqb t "SINGLE_FAMILY" then "single-family homes"
      else if String.eqb t "CONDO" then "condominiums"
      else if String.eqb t "TOWNHOUSE" then "townhouses"
      else if String.eqb t "MULTI_FAMILY" then "multi-family homes"
      else if String.eqb t "LAND" then "land"
      else "properties"
  | None => "properties"
  end.

(** the price clause, chosen by which of the two bounds are present *)
Definition price_clause (lo hi : option Z) : string :=
  match lo, hi with
  | Some a, Some b =>
      " priced between $" ++ format_commas a ++ " and $" ++ format_commas b
  | Some a, None => " priced above $" ++ format_commas a
  | None, Some b => " priced under $" ++ format_commas b
  | None, None => EmptyString
  end.

Definition summary_sentence (loc : string) (property_type : option string)
  (lo hi : option Z) : string :=
  "Looking for " ++ plural_noun property_type ++ " in " ++ loc
    ++ price_clause lo hi.

(** a bound of the criteria: absent, or a whole number whose size a
    double holds exactly *)
Definition price_ok (p : option Z) : Prop :=
  match p with
  | Some n => double_int (Z.abs n) = true
  | None => True
  end.


(** one feature, by the test the specification words: the field is there *)
Definition feature_if_present (fields : list (string * json)) (key unit : string)
  : list string :=
  match Py.lookup fields key with
  | Some v => [Py.str v ++ " " ++ unit]
  | None => []
  end.

Definition features_by_presence (fields : list (string * json)) : list string :=
  (feature_if_present fields "bedrooms" "bedrooms"
   ++ feature_if_present fields "bathrooms" "bathrooms"
   ++ feature_if_present fields "livingArea" "sqft")%list.

(** one feature, by the test of the code: the field is there and its
    value is true (not [None], zero, [False] or empty) *)
Definition feature_if_true (fields : list (string * json)) (key unit : string)
  : list string :=
  match Py.lookup fields key with
  | Some v => if Py.truthy v then [Py.str v ++ " " ++ unit] else []
  | None => []
  end.

Definition features_by_truth (fields : list (string * json)) : list string :=
  (feature_if_true fields "bedrooms" "bedrooms"
   ++ feature_if_true fields "bathrooms" "bathrooms"
   ++ feature_if_true fields "livingArea" "sqft")%list.

(** a studio: the bedroom count is there, and is zero *)
Definition studio : list (string * json) :=
  [("zpid", JInt 7); ("price", JInt 180000); ("city", JStr "Boston");
   ("bedrooms", JInt 0); ("bathrooms", JInt 1)].

(** a record with no [price] field *)
Definition unpriced : list (string * json) :=
  [("zpid", JInt 42); ("city", JStr "Boston"); ("bedrooms", JInt 3)].

Definition unpriced_listing : Property.t :=
  {| Property.id := "42";
     Property.title := "Property in Boston";
     Property.price := 0;
     Property.location := "Boston";
     Property.summary := "Property with 3 beds, N/A baths";
     Property.image_url := EmptyString;
     Property.features := ["3 bedrooms"] |}.

Ltac bind_ok H :=
  match type of H with
  | bind ?m _ = Ok _ =>
      let E := fresh "E" in
      destruct m eqn:E; [cbn [bind] in H | discriminate H]
  end.

(** the same world with another answer of the text-generation provider *)
Definition with_groq (w : world) (answer : string -> http_outcome) : world :=
  {| zillow := zillow w; groq := answer;
     timestamp := timestamp w; writable := writable w |}.

(** the enrichment call fails: the request raises, the status is not
    200, or reading the text out of the answer raises *)
Definition enrichment_failed (outcome : http_outcome) : Prop :=
  match outcome with
  | TimedOut | Failed => True
  | Response status_code _ _ =>
      status_code <> 200 \/ exists e, location_overview_body outcome = Raise e
  end.

Definition without_overview (r : search_response) : search_response :=
  {| results := results r;
     static_page_url := static_page_url r;
     search_summary := search_summary r;
     location_overview := JNull |}.

(** a provider that is down, and one that answers *)
Definition groq_down : string -> http_outcome :=
  fun _ => Response 503 "Service Unavailable" None.

Definition groq_up : string -> http_outcome :=
  fun _ => Response 200 EmptyString
    (Some (JObj [("choices",
                  JArr [JObj [("message",
                               JObj [("content", JStr "# Boston")])]])])).

Definition boston_world (answer : string -> http_outcome) : world :=
  {| zillow := fun _ =>
       Response 200 EmptyString (Some (JObj [("props", JArr [JObj unpriced])]));
     groq := answer;
     timestamp := "20240101-120000";
     writable := true |}.

(** every character of [s] passes the test [p] *)
Fixpoint all_chars (p : ascii -> bool) (s : string) : bool :=
  match s with
  | EmptyString => true
  | String c s' => p c && all_chars p s'
  end.

(** a pattern node that is a quantified character test *)
Definition is_item (n : Re.node) : Prop :=
  match n with
  | Re.Item _ _ => True
  | _ => False
  end.

(** the sign bit of a float *)
Definition negative (x : Float.t) : bool :=
  match x with
  | Float.Fin neg _ _ => neg
  | Float.Inf neg => neg
  | Float.Nan => false
  end.

(** a character that is no white space *)
Definition nonspace (c : ascii) : bool := negb (Char.isspace c).

(** the first three statements of the loop body: the [price] entry, or
    "0", without "$" and "," when it is text, through [float] and [int] *)
Definition listing_price (fields : list (string * json)) : result Z :=
  let price_str :=
    match Py.lookup fields "price" with Some v => v | None => JStr "0" end in
  let price_str :=
    match price_str with
    | JStr s => JStr (Str.remove "," (Str.remove "$" s))
    | other => other
    end in
  bind (Py.float price_str) Float.to_int.

(** [prop.get(key, "")] as the text [.strip()] is called on *)
Definition address_part (fields : list (string * json)) (key : string)
  : option string :=
  match Py.lookup fields key with
  | None => Some EmptyString
  | Some (JStr s) => Some s
  | Some _ => None
  end.

(** [prop.get("imgSrc", prop.get("imageUrl", ""))] *)
Definition image_field (fields : list (string * json)) : json :=
  match Py.lookup fields "imgSrc" with
  | Some v => v
  | None =>
      match Py.lookup fields "imageUrl" with
      | Some v => v
      | None => JStr EmptyString
      end
  end.

(** records for the examples *)
Definition priced (price : json) : list (string * json) :=
  [("zpid", JInt 7); ("price", price); ("city", JStr "Boston")].

Definition null_city : list (string * json) :=
  [("zpid", JInt 8); ("price", JInt 300000); ("city", JNull)].

Definition null_image : list (string * json) :=
  [("zpid", JInt 9); ("price", JInt 300000); ("imgSrc", JNull);
   ("imageUrl", JStr "https://example.com/9.jpg")].

(** a world whose listing provider comes back with [outcome] *)
Definition provider_world (outcome : http_outcome) : world :=
  {| zillow := fun _ => outcome;
     groq := groq_down;
     timestamp := "20240101-120000";
     writable := true |}.

(** the status is one the provider's client raises for:
    [raise_for_status] *)
Definition error_status (status_code : Z) : bool :=
  (400 <=? status_code) && (status_code <? 600).

(** [results.get("props", results.get("results", []))] *)
Definition properties_entry (fields : list (string * json)) : json :=
  match Py.lookup fields "props" with
  | Some v => v
  | None =>
      match Py.lookup fields "results" with
      | Some v => v
      | None => JArr []
      end
  end.

(** what [except Exception] of [search_zillow] wraps when the body has an
    ["error"] entry: the API error when that entry is a dictionary, the
    [AttributeError] of [.get] otherwise *)
Definition api_error_cause (err : json) : exn :=
  match err with
  | JObj efields =>
      HTTPException 400
        (Text ("Zillow API error: "
                 ++ Py.str (match Py.lookup efields "message" with
                            | Some msg => msg
                            | None => JStr "Unknown API error"
                            end)))
  | _ => AttributeError
  end.

(** a body whose [props] is empty although [results] is not *)
Definition hidden_results : list (string * json) :=
  [("props", JArr []); ("results", JArr [JObj unpriced])].

(** a body whose [props] is a dictionary, not a list *)
Definition keyed_props : list (string * json) :=
  [("props", JObj [("42", JObj unpriced)])].

(** a character of a slug: a lower-case letter, a digit or a dash *)
Definition slug_or_dash (c : ascii) : bool := slug_char c || Char.eq "-" c.

(** the first and the last character of [s] pass the test [p] *)
Definition first_is (p : ascii -> bool) (s : string) : bool :=
  match s with
  | String c _ => p c
  | EmptyString => false
  end.

Fixpoint last_is (p : ascii -> bool) (s : string) : bool :=
  match s with
  | EmptyString => false
  | String c EmptyString => p c
  | String _ s' => last_is p s'
  end.

(** a run of characters passing [p] cannot go on into [after]: [after]
    is empty or starts with a character that fails [p] *)
Definition ends_run (p : ascii -> bool) (after : string) : Prop :=
  match after with
  | EmptyString => True
  | String c _ => p c = false
  end.

(** the three words of [location_patterns] *)
Definition location_words : list string := ["in"; "at"; "near"].

(** * Properties *)


(** ** The query interpreter *)

(** C1, as the code behaves: on "condos near Chicago under 500000" the
    class [[A-Za-z\s,]+] after "near " runs on through " under " up to the
    first digit, so the location is "Chicago under", to which no state is
    added; the property type is CONDO and the price ceiling 500000. *)
Theorem chicago_query_location_runs_on :
  extract_search_params chicago_query
  = Ok {| location := Some "Chicago under";
          min_price := None;
          max_price := Some (str_int 500000);
          property_type := Some "CONDO" |}.
Proof. vm_compute. reflexivity. Qed.

(** C3: on "homes under 2 million in Boston" the interpreter returns the
    location "Boston, MA", the property type SINGLE_FAMILY and the price
    ceiling 2000000 (held, as every price of the criteria, as the decimal
    string [str(int(price))]). *)
Theorem boston_query_criteria :
  extract_search_params boston_query
  = Ok {| location := Some "Boston, MA";
          min_price := None;
          max_price := Some (str_int 2000000);
          property_type := Some "SINGLE_FAMILY" |}.
Proof. vm_compute. reflexivity. Qed.

(** how the patterns read a few more queries *)
Example location_runs_to_the_first_digit :
  Re.search (location_pattern "near") "condos near Chicago under 500000"
  = Some "Chicago under "
  /\ Re.search (location_pattern "in") "homes in New York, NY" = Some "New York, NY"
  /\ Re.search (location_pattern "in") "cabin near Austin" = Some "near Austin"
  /\ extract_location "lofts IN miami" = Ok "miami, FL".
Proof. repeat split; vm_compute; reflexivity. Qed.

Example price_patterns_read :
  first_price price_patterns "under 1.5 million" = Some "1500000"
  /\ first_price price_patterns "under $500,000" = Some "500000"
  /\ first_price price_patterns "under $1,250,000" = Some "1250"
  /\ first_price price_patterns "less than 2million" = Some "2000000"
  /\ first_price price_patterns "3 beds at 12 main street" = Some "3"
  /\ first_price price_patterns "2 million under 5" = Some "5".
Proof. repeat split; vm_compute; reflexivity. Qed.


Lemma first_location_none (query : string) :
  no_preposition query -> first_location location_patterns query = None.
Proof.
  intros (Hin & Hat & Hnear).
  unfold location_patterns. simpl. now rewrite Hin, Hat, Hnear.
Qed.

Lemma extract_search_params_location (query : string) :
  extract_search_params query
  = match extract_location query with
    | Ok loc =>
        Ok {| location := Some loc;
              min_price := None;
              max_price := first_price price_patterns (Str.lower query);
              property_type := Some (extract_property_type (Str.lower query)) |}
    | Raise e => Raise e
    end.
Proof. unfold extract_search_params, bind. now destruct (extract_location query). Qed.

(** C4: when no prepositional pattern matches and the first token of the
    query (if there is one) does not start with an upper-case letter, the
    interpreter raises the missing-location error: [extract_location]
    raises it and [extract_search_params] returns no criteria. *)
Theorem missing_location_raised (query : string) :
  no_preposition query ->
  (forall c rest others,
      Str.split query = String c rest :: others -> Char.isupper c = false) ->
  extract_location query = Raise missing_location
  /\ extract_search_params query = Raise missing_location.
Proof.
  intros Hnone Hlower.
  assert (Hloc : extract_location query = Raise missing_location).
  { unfold extract_location. rewrite (first_location_none _ Hnone).
    destruct (Str.split query) as [|[|c rest] others] eqn:Hsplit; try reflexivity.
    now rewrite (Hlower c rest others eq_refl). }
  split; [exact Hloc|].
  now rewrite extract_search_params_location, Hloc.
Qed.

Lemma missing_location_raised_witness :
  extract_location "cheap condos under 500000" = Raise missing_location
  /\ extract_search_params "cheap condos under 500000" = Raise missing_location.
Proof.
  apply missing_location_raised.
  - repeat split; vm_compute; reflexivity.
  - intros c rest others H. vm_compute in H. injection H as <- _ _. reflexivity.
Defined.

(** C10: when no prepositional pattern matches and the first token
    starts with an upper-case letter, the location is that token
    unchanged: the known-city table is not consulted, so "Boston" stays
    "Boston". *)
Theorem capitalized_token_kept (query : string) (c : ascii) (rest : string)
  (others : list string) :
  no_preposition query ->
  Str.split query = String c rest :: others ->
  Char.isupper c = true ->
  extract_location query = Ok (String c rest)
  /\ exists crit, extract_search_params query = Ok crit
                  /\ location crit = Some (String c rest).
Proof.
  intros Hnone Hsplit Hupper.
  assert (Hloc : extract_location query = Ok (String c rest)).
  { unfold extract_location.
    now rewrite (first_location_none _ Hnone), Hsplit, Hupper. }
  split; [exact Hloc|].
  rewrite extract_search_params_location, Hloc. eexists. split; reflexivity.
Qed.

Lemma capitalized_token_kept_witness :
  extract_location "Boston condos under 500000" = Ok "Boston"
  /\ exists crit, extract_search_params "Boston condos under 500000" = Ok crit
                  /\ location crit = Some "Boston".
Proof.
  apply (capitalized_token_kept "Boston condos under 500000" "B" "oston"
           ["condos"; "under"; "500000"]).
  - repeat split; vm_compute; reflexivity.
  - vm_compute; reflexivity.
  - vm_compute; reflexivity.
Defined.

(** ** Price extraction *)

Lemma first_price_cons entry rest query_lower :
  first_price (entry :: rest) query_lower
  = match parsed_match entry query_lower with
    | Some price => Some price
    | None => first_price rest query_lower
    end.
Proof.
  destruct entry as [pattern converter]. unfold parsed_match. simpl.
  destruct (Re.search pattern query_lower) as [g|]; [|reflexivity].
  now destruct (convert_price converter g).
Qed.

Lemma first_price_none patterns query_lower :
  (forall entry, In entry patterns -> Re.search (fst entry) query_lower = None) ->
  first_price patterns query_lower = None.
Proof.
  induction patterns as [|entry rest IH]; intros Hnone; [reflexivity|].
  rewrite first_price_cons. unfold parsed_match.
  rewrite (Hnone entry (or_introl eq_refl)).
  apply IH. intros e He. apply Hnone. now right.
Qed.

(** the loop returns what the first entry with a parsed match yields *)
Lemma first_price_first patterns query_lower :
  forall i entry price,
    nth_error patterns i = Some entry ->
    parsed_match entry query_lower = Some price ->
    exists k first winner,
      (k <= i)%nat
      /\ nth_error patterns k = Some first
      /\ parsed_match first query_lower = Some winner
      /\ (forall k' e, (k' < k)%nat -> nth_error patterns k' = Some e ->
                       parsed_match e query_lower = None)
      /\ first_price patterns query_lower = Some winner.
Proof.
  induction patterns as [|head rest IH]; intros i entry price Hnth Hparsed.
  - now destruct i.
  - rewrite first_price_cons.
    destruct (parsed_match head query_lower) as [w|] eqn:Hhead.
    + exists 0%nat, head, w. repeat split; auto with arith.
      intros k' e Hlt. inversion Hlt.
    + destruct i as [|i]; simpl in Hnth.
      * injection Hnth as ->. congruence.
      * destruct (IH i entry price Hnth Hparsed)
          as (k & first & w & Hle & Hk & Hw & Hbefore & Hloop).
        exists (S k), first, w. repeat split; auto with arith.
        intros [|k'] e Hlt He; simpl in He.
        -- injection He as <-. exact Hhead.
        -- apply (Hbefore k' e); auto with arith.
Qed.

(** C5: the criteria of every query have no [min_price], and no
    [max_price] either when none of the six price patterns matches the
    lower-cased query. *)
Theorem min_price_never_set (query : string) (crit : criteria) :
  extract_search_params query = Ok crit ->
  min_price crit = None
  /\ ((forall entry, In entry price_patterns ->
                     Re.search (fst entry) (Str.lower query) = None) ->
      max_price crit = None).
Proof.
  rewrite extract_search_params_location.
  destruct (extract_location query) as [loc|e]; [|discriminate].
  intros [= <-]. cbn [min_price max_price]. split; [reflexivity|].
  apply first_price_none.
Qed.

Lemma min_price_never_set_witness :
  min_price (mk_criteria (Some "Boston, MA") None None (Some "SINGLE_FAMILY")) = None
  /\ max_price (mk_criteria (Some "Boston, MA") None None (Some "SINGLE_FAMILY"))
     = None.
Proof.
  destruct (min_price_never_set "homes in Boston"
              (mk_criteria (Some "Boston, MA") None None (Some "SINGLE_FAMILY")))
    as [Hmin Hmax]; [vm_compute; reflexivity|].
  split; [exact Hmin|]. apply Hmax.
  intros entry Hin. unfold price_patterns in Hin. cbn [In] in Hin.
  destruct Hin as [<-|[<-|[<-|[<-|[<-|[<-|[]]]]]]]; vm_compute; reflexivity.
Defined.

(** C6: when a "million" pattern and a bare-number pattern both have a
    match that parses, the price ceiling is the one produced by the first
    pattern, in the order of [price_patterns], that has a parsed match;
    that pattern stands at or before the earlier of the two, and no
    pattern before it has a parsed match. *)
Theorem first_price_pattern_wins (query : string) (crit : criteria)
  (i j : nat) (pi pj : string) :
  extract_search_params query = Ok crit ->
  million_pattern i = true ->
  plain_pattern j = true ->
  parsed_at i (Str.lower query) = Some pi ->
  parsed_at j (Str.lower query) = Some pj ->
  exists k winner,
    (k <= Nat.min i j)%nat
    /\ parsed_at k (Str.lower query) = Some winner
    /\ (forall k', (k' < k)%nat -> parsed_at k' (Str.lower query) = None)
    /\ max_price crit = Some winner.
Proof.
  intros Hcrit _ _ Hi Hj.
  rewrite extract_search_params_location in Hcrit.
  destruct (extract_location query) as [loc|e]; [|discriminate].
  injection Hcrit as <-. cbn [max_price].
  assert (Hmin : exists p, parsed_at (Nat.min i j) (Str.lower query) = Some p).
  { destruct (Nat.min_dec i j) as [-> | ->]; eauto. }
  destruct Hmin as [p Hp]. unfold parsed_at in Hp.
  destruct (nth_error price_patterns (Nat.min i j)) as [entry|] eqn:Hnth;
    [|discriminate].
  destruct (first_price_first _ _ _ _ _ Hnth Hp)
    as (k & first & w & Hle & Hk & Hw & Hbefore & Hloop).
  exists k, w. repeat split; auto.
  - unfold parsed_at. now rewrite Hk.
  - intros k' Hlt. unfold parsed_at.
    destruct (nth_error price_patterns k') as [e|] eqn:He; [|reflexivity].
    now apply (Hbefore k' e).
Qed.

Lemma first_price_pattern_wins_witness :
  exists k winner,
    (k <= Nat.min 0 1)%nat
    /\ parsed_at k (Str.lower boston_query) = Some winner
    /\ (forall k', (k' < k)%nat -> parsed_at k' (Str.lower boston_query) = None)
    /\ max_price (mk_criteria (Some "Boston, MA") None (Some "2000000")
                    (Some "SINGLE_FAMILY")) = Some winner.
Proof.
  apply (first_price_pattern_wins boston_query _ 0 1 "2000000" "2");
    vm_compute; reflexivity.
Defined.

(** ** Prices as digit strings *)

Lemma append_assoc (a b c : string) : ((a ++ b) ++ c = a ++ (b ++ c))%string.
Proof. induction a as [|x a IH]; simpl; [reflexivity|now rewrite IH]. Qed.

Lemma append_nil_r (a : string) : (a ++ EmptyString)%string = a.
Proof. induction a as [|x a IH]; simpl; [reflexivity|now rewrite IH]. Qed.

Lemma isdigit_code c : Float.isdigit c = true -> (48 <= Char.code c <= 57)%N.
Proof.
  unfold Float.isdigit, Char.isdecimal, Char.between.
  rewrite andb_true_iff, !N.leb_le. tauto.
Qed.

Lemma isdigit_not c x :
  Float.isdigit x = false -> Float.isdigit c = true -> Ascii.eqb c x = false.
Proof.
  intros Hx Hc. destruct (Ascii.eqb_spec c x) as [->|]; congruence.
Qed.

Lemma isdigit_not_space c : Float.isdigit c = true -> Float.isspace c = false.
Proof.
  intros H%isdigit_code. unfold Float.isspace, Char.between.
  repeat (apply orb_false_iff; split);
    rewrite ?andb_false_iff, ?N.leb_gt, ?N.eqb_neq; lia.
Qed.

Lemma isdigit_lower c : Float.isdigit c = true -> Char.lower c = c.
Proof.
  intros H%isdigit_code. unfold Char.lower.
  replace (Char.isupper c) with false; [reflexivity|].
  symmetry. unfold Char.isupper, Char.between.
  repeat (apply orb_false_iff; split);
    rewrite ?andb_false_iff, ?N.leb_gt; lia.
Qed.

Lemma all_digits_uint d : all_digits (NilEmpty.string_of_uint d) = true.
Proof. induction d; simpl; auto. Qed.

Lemma remove_digits x s :
  Float.isdigit x = false -> all_digits s = true -> Str.remove x s = s.
Proof.
  intros Hx. induction s as [|c s IH]; simpl; [reflexivity|].
  intros [Hc Hs]%andb_true_iff.
  now rewrite (isdigit_not _ _ Hx Hc), IH.
Qed.

Lemma rstrip_digits s :
  all_digits s = true -> Str.rstrip_with Float.isspace s = s.
Proof.
  induction s as [|c s IH]; simpl; [reflexivity|].
  intros [Hc Hs]%andb_true_iff. rewrite (IH Hs).
  destruct s; [now rewrite isdigit_not_space|reflexivity].
Qed.

Lemma strip_digits s :
  all_digits s = true -> Str.strip_with Float.isspace s = s.
Proof.
  intros H. unfold Str.strip_with.
  replace (Str.lstrip_with Float.isspace s) with s; [now apply rstrip_digits|].
  destruct s as [|c s]; [reflexivity|]. simpl in *.
  apply andb_true_iff in H as [Hc _]. now rewrite isdigit_not_space.
Qed.

Lemma underscores_digits s prev :
  Ascii.eqb prev "_" = false -> all_digits s = true ->
  Float.underscores_ok prev s = true.
Proof.
  revert prev. induction s as [|c s IH]; simpl; intros prev Hprev.
  - now rewrite Hprev.
  - intros [Hc Hs]%andb_true_iff.
    assert (Hu : Ascii.eqb c "_" = false) by now apply isdigit_not.
    rewrite Hu, Hprev. simpl. now apply IH.
Qed.

Lemma span_digits s :
  all_digits s = true -> Float.span Float.isdigit s = (s, EmptyString).
Proof.
  induction s as [|c s IH]; simpl; [reflexivity|].
  intros [Hc Hs]%andb_true_iff. now rewrite Hc, IH.
Qed.

(** [float(s)] on a non-empty string of digits is the double nearest to
    the number the digits denote *)
(** [float] on a non-empty string of digits, after the sign, is the
    double nearest to the number the digits denote *)
Lemma of_unsigned_digits neg s :
  s <> EmptyString -> all_digits s = true ->
  Float.of_unsigned neg s = Ok (Float.of_ratio neg (Float.digits s) 1).
Proof.
  intros Hne Hs. unfold Float.of_unsigned.
  destruct s as [|c s]; [congruence|].
  pose proof Hs as Hs'. simpl in Hs'. apply andb_true_iff in Hs' as [Hc Hrest].
  assert (Hword : forall w,
            match w with String x _ => Float.isdigit x = false | _ => True end ->
            String.eqb (Str.lower (String c s)) w = false).
  { intros [|x w] Hx; simpl; [reflexivity|].
    rewrite (isdigit_lower _ Hc).
    destruct (Ascii.eqb_spec c x) as [->|]; [congruence|reflexivity]. }
  rewrite !Hword by reflexivity. cbn [orb].
  unfold Float.parse_decimal. rewrite (span_digits _ Hs).
  cbn [String.length Z.of_nat]. rewrite append_nil_r.
  cbn [String.eqb]. unfold Float.of_decimal. simpl (0 <=? - 0).
  cbv iota. now rewrite Z.pow_0_r, Z.mul_1_r.
Qed.

Lemma take_sign_digits s :
  s <> EmptyString -> all_digits s = true -> Float.take_sign s = (false, s).
Proof.
  intros Hne Hs. destruct s as [|c s]; [congruence|].
  simpl in Hs. apply andb_true_iff in Hs as [Hc _].
  unfold Float.take_sign.
  destruct (Ascii.eqb_spec c "-") as [->|]; [discriminate|].
  destruct (Ascii.eqb_spec c "+") as [->|]; [discriminate|].
  destruct c as [[] [] [] [] [] [] [] []]; try reflexivity; congruence.
Qed.

(** the text of a whole number: digits, after "-" when [neg] *)
Lemma of_string_signed (neg : bool) s :
  s <> EmptyString -> all_digits s = true ->
  Float.of_string (if neg then String "-" s else s)
  = Ok (Float.of_ratio neg (Float.digits s) 1).
Proof.
  intros Hne Hs. unfold Float.of_string. destruct neg.
  - assert (Hstrip : Str.strip_with Float.isspace (String "-" s) = String "-" s).
    { unfold Str.strip_with. cbn [Str.lstrip_with].
      change (Float.isspace "-") with false. cbv iota.
      cbn [Str.rstrip_with]. rewrite (rstrip_digits _ Hs).
      destruct s; [congruence|reflexivity]. }
    rewrite Hstrip. cbn [Float.underscores_ok].
    rewrite (underscores_digits s "-" eq_refl Hs).
    cbn [Str.remove]. change (Ascii.eqb "-" "_") with false. cbv iota.
    rewrite (remove_digits "_" s eq_refl Hs).
    cbn. now apply of_unsigned_digits.
  - rewrite (strip_digits _ Hs), (underscores_digits s "000" eq_refl Hs).
    rewrite (remove_digits "_" s eq_refl Hs). cbn [negb].
    rewrite (take_sign_digits _ Hne Hs). now apply of_unsigned_digits.
Qed.

Lemma floor_log2_int n : 0 < n -> Float.floor_log2 n 1 = Z.log2 n.
Proof.
  intros Hn. unfold Float.floor_log2, Float.scale.
  change (Z.log2 1) with 0. rewrite Z.sub_0_r.
  pose proof (Z.log2_nonneg n) as Hl.
  destruct (Z.leb_spec 0 (Z.log2 n)) as [_|]; [|lia].
  pose proof (proj1 (Z.log2_spec n Hn)) as Hlow.
  destruct (Z.ltb_spec n (1 * 2 ^ Z.log2 n)); lia.
Qed.

(** a whole number with at most 53 significant bits goes through
    [float] and [int] unchanged *)
Lemma of_ratio_exact (neg : bool) n :
  double_int n = true ->
  bind (Ok (Float.of_ratio neg n 1)) Float.to_int = Ok (if neg then - n else n).
Proof.
  unfold double_int. intros [Hn Hbits]%andb_true_iff. apply Z.leb_le in Hn.
  unfold Float.of_ratio.
  destruct (Z.leb_spec n 0) as [Hz|Hpos].
  { assert (n = 0) by lia. subst. now destruct neg. }
  rewrite (floor_log2_int n Hpos).
  pose proof (Z.log2_nonneg n) as Hl.
  pose proof (Z.log2_spec n Hpos) as [Hlow Hhigh].
  set (l := Z.log2 n) in *.
  replace (Z.max (l - 52) (-1074)) with (l - 52) by lia.
  unfold Float.scale.
  destruct (Z.leb_spec 0 (l - 52)) as [He|He].
  - (* the mantissa is [n / 2^(l-52)], an exact quotient *)
    assert (Hpow : 0 < 2 ^ (l - 52)) by (apply Z.pow_pos_nonneg; lia).
    assert (Hmod : n mod 2 ^ (l - 52) = 0 /\ l < 1024).
    { apply orb_true_iff in Hbits as [Hsmall|Hbig].
      - apply Z.leb_le in Hsmall. replace (l - 52) with 0 by lia.
        split; [apply Z.mod_1_r|lia].
      - apply andb_true_iff in Hbig as [Hm Hl']. apply Z.eqb_eq in Hm.
        apply Z.ltb_lt in Hl'. auto. }
    destruct Hmod as [Hmod Hl1024].
    rewrite Z.mul_1_l, Hmod.
    assert (Hq : n / 2 ^ (l - 52) * 2 ^ (l - 52) = n).
    { pose proof (Z.div_mod n (2 ^ (l - 52))). lia. }
    destruct (Z.ltb_spec (2 ^ (l - 52)) (2 * 0)) as [|_]; [lia|].
    destruct (Z.eqb_spec (2 * 0) (2 ^ (l - 52))) as [|_]; [lia|].
    cbn [orb andb]. rewrite Hq.
    assert (Hlt : n < 2 ^ 1024).
    { apply Z.lt_le_trans with (2 ^ Z.succ l); [exact Hhigh|].
      apply Z.pow_le_mono_r; lia. }
    destruct (Z.leb_spec (2 ^ 1024) n) as [|_]; [lia|].
    cbn [andb]. unfold bind, Float.to_int.
    destruct (Z.leb_spec 0 (l - 52)); [|lia]. now rewrite Hq.
  - (* the mantissa is [n * 2^(52-l)] *)
    rewrite Z.div_1_r, Z.mod_1_r.
    destruct (Z.ltb_spec 1 (2 * 0)) as [|_]; [lia|].
    destruct (Z.eqb_spec (2 * 0) 1) as [|_]; [lia|].
    cbn [orb andb]. unfold bind, Float.to_int.
    destruct (Z.leb_spec 0 (l - 52)); [lia|].
    rewrite Z.div_mul; [reflexivity|].
    apply Z.pow_nonzero; lia.
Qed.

Lemma str_int_digits n :
  0 <= n ->
  str_int n <> EmptyString
  /\ all_digits (str_int n) = true
  /\ Float.digits (str_int n) = n.
Proof.
  intros Hn. unfold str_int.
  assert (Hd : exists d, Z.to_int n = Pos d /\ d <> Nil).
  { destruct n as [|p|p]; [| |lia]; simpl.
    - exists zero. split; [reflexivity|discriminate].
    - exists (Pos.to_uint p). split; [reflexivity|apply Unsigned.to_uint_nonnil]. }
  destruct Hd as (d & Hd & Hnil).
  pose proof (DecimalZ.of_to n) as Hback. rewrite Hd in *. simpl in Hback.
  unfold NilZero.string_of_int, NilZero.string_of_uint.
  destruct d as [| | | | | | | | | |]; try congruence;
    (split; [discriminate|]; split; [apply all_digits_uint|]);
    unfold Float.digits; now rewrite NilEmpty.usu.
Qed.

Lemma str_int_sign n :
  str_int n = if n <? 0 then String "-" (str_int (Z.abs n)) else str_int (Z.abs n).
Proof. now destruct n. Qed.

(** the number the summary prints for a price the criteria hold as
    [str(n)] is [n] *)
Lemma price_number_str_int n :
  double_int (Z.abs n) = true -> price_number (Some (str_int n)) = Ok n.
Proof.
  intros Hd.
  destruct (str_int_digits (Z.abs n) (Z.abs_nonneg n)) as (Hne & Hall & Hval).
  unfold price_number, fmt. rewrite str_int_sign.
  assert (Hclean : forall x, Float.isdigit x = false -> Ascii.eqb "-" x = false ->
            Str.remove x (if n <? 0 then String "-" (str_int (Z.abs n))
                          else str_int (Z.abs n))
            = (if n <? 0 then String "-" (str_int (Z.abs n))
               else str_int (Z.abs n))).
  { intros x Hx Hminus. destruct (n <? 0); cbn [Str.remove];
      rewrite ?Hminus, (remove_digits x _ Hx Hall); reflexivity. }
  rewrite (Hclean "$"%char eq_refl eq_refl), (Hclean ","%char eq_refl eq_refl).
  rewrite (of_string_signed (n <? 0) _ Hne Hall), Hval.
  rewrite (of_ratio_exact _ _ Hd).
  destruct (Z.ltb_spec n 0); f_equal; lia.
Qed.

Lemma shift_lt n d a b k :
  0 <= a -> 0 <= b -> 0 <= k ->
  n * 2 ^ a < d * 2 ^ b <-> n * 2 ^ (a + k) < d * 2 ^ (b + k).
Proof.
  intros Ha Hb Hk. rewrite !Z.pow_add_r by lia.
  assert (0 < 2 ^ k) by (apply Z.pow_pos_nonneg; lia).
  rewrite !Z.mul_assoc. split; intros H0.
  - apply Z.mul_lt_mono_pos_r; assumption.
  - apply Z.mul_lt_mono_pos_r in H0; assumption.
Qed.

(** [n/d < 2^(b-a)] does not depend on how the difference is split *)
Lemma shift_lt_any n d a b a' b' :
  0 <= a -> 0 <= b -> 0 <= a' -> 0 <= b' -> b - a = b' - a' ->
  n * 2 ^ a < d * 2 ^ b -> n * 2 ^ a' < d * 2 ^ b'.
Proof.
  intros Ha Hb Ha' Hb' Hdiff H.
  destruct (Z.le_ge_cases a a') as [Hle|Hge].
  - replace a' with (a + (a' - a)) by lia. replace b' with (b + (a' - a)) by lia.
    apply shift_lt; [lia..|exact H].
  - replace a with (a' + (a - a')) in H by lia.
    replace b with (b' + (a - a')) in H by lia.
    apply shift_lt in H; [exact H|lia..].
Qed.

Lemma floor_log2_upper n d a b :
  0 < n -> 0 < d -> 0 <= a -> 0 <= b ->
  Float.floor_log2 n d + 1 <= b - a ->
  n * 2 ^ a < d * 2 ^ b.
Proof.
  intros Hn Hd Ha Hb Hdiff.
  (* the bound with the difference exactly one above the logarithm *)
  assert (Hexact : forall a0 b0, 0 <= a0 -> 0 <= b0 ->
            b0 - a0 = Float.floor_log2 n d + 1 -> n * 2 ^ a0 < d * 2 ^ b0).
  { intros a0 b0 Ha0 Hb0 Heq.
    pose proof (Z.log2_nonneg n) as Hln. pose proof (Z.log2_nonneg d) as Hld.
    pose proof (Z.log2_spec n Hn) as [_ Hnhigh].
    pose proof (Z.log2_spec d Hd) as [Hdlow _].
    assert (P0 : n * 2 ^ Z.log2 d < d * 2 ^ (Z.log2 n + 1)).
    { rewrite <- Z.add_1_r in Hnhigh.
      assert (0 < 2 ^ Z.log2 d) by (apply Z.pow_pos_nonneg; lia).
      nia. }
    unfold Float.floor_log2, Float.scale in Heq.
    set (l0 := Z.log2 n - Z.log2 d) in *.
    destruct (Z.leb_spec 0 l0) as [Hl0|Hl0].
    - destruct (Z.ltb_spec n (d * 2 ^ l0)) as [Hlt|Hge].
      + apply (shift_lt_any n d 0 l0); [lia..|].
        now rewrite Z.pow_0_r, Z.mul_1_r.
      + apply (shift_lt_any n d (Z.log2 d) (Z.log2 n + 1)); [lia..|exact P0].
    - destruct (Z.ltb_spec (n * 2 ^ (- l0)) d) as [Hlt|Hge].
      + apply (shift_lt_any n d (- l0) 0); [lia..|].
        now rewrite Z.pow_0_r, Z.mul_1_r.
      + apply (shift_lt_any n d (Z.log2 d) (Z.log2 n + 1)); [lia..|exact P0]. }
  set (fl := Float.floor_log2 n d) in *.
  (* widen the difference *)
  set (k := Z.max 0 (- (fl + 1))).
  assert (H1 : n * 2 ^ (a + k) < d * 2 ^ (a + k + fl + 1)).
  { apply Hexact; lia. }
  assert (H2 : d * 2 ^ (a + k + fl + 1) <= d * 2 ^ (b + k)).
  { apply Z.mul_le_mono_nonneg_l; [lia|]. apply Z.pow_le_mono_r; lia. }
  apply (shift_lt n d a b k); lia.
Qed.

Lemma pow2_pos k : 0 <= k -> 0 < 2 ^ k.
Proof. intros. apply Z.pow_pos_nonneg; lia. Qed.

(** rounding gives a double *)
Lemma of_ratio_double neg n d : 0 < d -> double (Float.of_ratio neg n d).
Proof.
  intros Hd. unfold Float.of_ratio.
  pose proof (pow2_pos 53 ltac:(lia)) as H53.
  pose proof (pow2_pos 1024 ltac:(lia)) as H1024.
  destruct (Z.leb_spec n 0) as [Hz|Hn].
  { cbn [double]. split; [lia|]. intros _. now rewrite Z.mul_0_l. }
  set (e := Z.max (Float.floor_log2 n d - 52) (-1074)).
  assert (He : Float.floor_log2 n d + 1 <= e + 53) by lia.
  assert (Hscaled : exists n' d', Float.scale n d e = (n', d')
                                  /\ 0 < d' /\ 0 <= n' /\ n' < d' * 2 ^ 53).
  { unfold Float.scale. destruct (Z.leb_spec 0 e) as [Hpos|Hneg].
    - exists n, (d * 2 ^ e). pose proof (pow2_pos e Hpos).
      split; [reflexivity|]. split; [nia|]. split; [lia|].
      rewrite <- Z.mul_assoc, <- Z.pow_add_r by lia.
      pose proof (floor_log2_upper n d 0 (e + 53) Hn Hd) as Hup.
      rewrite Z.pow_0_r, Z.mul_1_r in Hup. apply Hup; lia.
    - exists (n * 2 ^ (- e)), d. pose proof (pow2_pos (- e) ltac:(lia)).
      split; [reflexivity|]. split; [lia|]. split; [nia|].
      apply (floor_log2_upper n d (- e) 53 Hn Hd); lia. }
  destruct Hscaled as (n' & d' & -> & Hd' & Hn' & Hlt).
  assert (Hq : 0 <= n' / d' < 2 ^ 53).
  { split; [apply Z.div_pos; lia|]. apply Z.div_lt_upper_bound; lia. }
  set (m := if (d' <? 2 * (n' mod d')) || ((2 * (n' mod d') =? d') && Z.odd (n' / d'))
            then n' / d' + 1 else n' / d').
  assert (Hm : 0 <= m <= 2 ^ 53).
  { unfold m. destruct (_ || _); lia. }
  destruct (Z.leb_spec 0 e) as [Hpos|Hneg]; cbn [andb].
  - destruct (Z.leb_spec (2 ^ 1024) (m * 2 ^ e)); cbn [double]; [exact I|].
    split; [exact Hm|]. intros _. assumption.
  - cbn [double]. split; [exact Hm|]. lia.
Qed.

(** the whole part of a double is a whole number a double holds *)
Lemma to_int_double x n :
  double x -> Float.to_int x = Ok n -> double_int (Z.abs n) = true.
Proof.
  destruct x as [|neg|neg m e]; try discriminate.
  intros [[Hm0 Hm] Hmax]. unfold Float.to_int.
  set (a := if 0 <=? e then m * 2 ^ e else m / 2 ^ (- e)).
  intros [= <-].
  assert (Ha : Z.abs (if neg then - a else a) = a /\ 0 <= a).
  { assert (0 <= a).
    { unfold a. destruct (Z.leb_spec 0 e).
      - pose proof (pow2_pos e ltac:(lia)). nia.
      - apply Z.div_pos; [lia|]. apply pow2_pos. lia. }
    destruct neg; lia. }
  destruct Ha as [-> Ha0].
  unfold double_int. apply andb_true_iff. split; [now apply Z.leb_le|].
  apply orb_true_iff.
  destruct (Z.eq_dec a 0) as [->|Hnz]; [left; reflexivity|].
  assert (Hapos : 0 < a) by lia.
  unfold a in *. destruct (Z.leb_spec 0 e) as [He|He].
  - assert (Hmpos : 0 < m) by nia.
    specialize (Hmax He).
    assert (Hlog : Z.log2 (m * 2 ^ e) = Z.log2 m + e).
    { rewrite Z.log2_mul_pow2 by lia. lia. }
    rewrite Hlog.
    assert (Hl1024 : Z.log2 m + e < 1024).
    { rewrite <- Hlog. apply Z.log2_lt_pow2; lia. }
    destruct (Z.le_gt_cases (Z.log2 m + e) 52) as [Hsmall|Hbig].
    + left. now apply Z.leb_le.
    + right. apply andb_true_iff. split; [|now apply Z.ltb_lt].
      apply Z.eqb_eq.
      assert (Hlm : Z.log2 m <= 53).
      { rewrite <- (Z.log2_pow2 53) by lia. now apply Z.log2_le_mono. }
      destruct (Z.eq_dec (Z.log2 m) 53) as [H53|H53].
      * (* the mantissa is 2^53 itself *)
        assert (m = 2 ^ 53).
        { pose proof (Z.log2_spec m Hmpos) as [Hlow _]. rewrite H53 in Hlow. lia. }
        subst m. rewrite H53.
        replace (2 ^ 53 * 2 ^ e) with (2 ^ 52 * 2 ^ (53 + e - 52)).
        2: { rewrite <- !Z.pow_add_r by lia. f_equal. lia. }
        apply Z.mod_mul. apply Z.pow_nonzero; lia.
      * replace e with ((e - (Z.log2 m + e - 52)) + (Z.log2 m + e - 52)) at 1 by lia.
        rewrite Z.pow_add_r by lia. rewrite Z.mul_assoc.
        apply Z.mod_mul. apply Z.pow_nonzero; lia.
  - left. apply Z.leb_le.
    assert (Hdiv : m / 2 ^ (- e) < 2 ^ 53).
    { apply Z.div_lt_upper_bound; [apply pow2_pos; lia|].
      pose proof (pow2_pos (- e) ltac:(lia)).
      assert (2 <= 2 ^ (- e)).
      { replace 2 with (2 ^ 1) at 1 by reflexivity. apply Z.pow_le_mono_r; lia. }
      nia. }
    assert (Z.log2 (m / 2 ^ (- e)) < 53) by (apply Z.log2_lt_pow2; lia).
    lia.
Qed.

Lemma of_decimal_double neg n k : double (Float.of_decimal neg n k).
Proof.
  unfold Float.of_decimal. destruct (Z.leb_spec 0 k).
  - apply of_ratio_double. lia.
  - apply of_ratio_double. apply Z.pow_pos_nonneg; lia.
Qed.

Lemma of_string_double s x : Float.of_string s = Ok x -> double x.
Proof.
  unfold Float.of_string, Float.of_unsigned.
  destruct (negb _); [discriminate|].
  destruct (Float.take_sign _) as [neg body].
  destruct (_ || _); [now intros [= <-]|].
  destruct (String.eqb _ _); [now intros [= <-]|].
  destruct (Float.parse_decimal body) as [[n k]|]; [|discriminate].
  intros [= <-]. apply of_decimal_double.
Qed.

Lemma mul_double x y : double x -> double y -> double (Float.mul x y).
Proof.
  intros Hx Hy. destruct x as [|a|a m e], y as [|b|b n f]; cbn [Float.mul double];
    try exact I.
  - now destruct (n =? 0).
  - now destruct (m =? 0).
  - unfold Float.scale. destruct (Z.leb_spec 0 (- (e + f))).
    + apply of_ratio_double. rewrite Z.mul_1_l. now apply pow2_pos.
    + apply of_ratio_double. lia.
Qed.

Lemma of_int_double z x : Float.of_int z = Ok x -> double x.
Proof.
  unfold Float.of_int.
  pose proof (of_ratio_double (z <? 0) (Z.abs z) 1 ltac:(lia)) as H.
  destruct (Float.of_ratio (z <? 0) (Z.abs z) 1); try discriminate;
    now intros [= <-].
Qed.

(** the price the loop writes is [str(n)] for a whole number [n] that a
    double holds exactly *)
Lemma convert_price_double conv g s :
  conv = times_million \/ conv = as_is ->
  convert_price conv g = Ok s ->
  exists n, s = str_int n /\ double_int (Z.abs n) = true.
Proof.
  intros Hconv H. unfold convert_price in H.
  assert (Hprice : forall x, conv g = Ok x -> double x).
  { intros x Hx. destruct Hconv as [-> | ->].
    - unfold times_million in Hx.
      destruct (Float.of_string g) as [f|] eqn:Hf; [|discriminate].
      cbn [bind] in Hx.
      destruct (Float.of_int 1000000) as [m|] eqn:Hm; [|discriminate].
      injection Hx as <-.
      apply mul_double; [eapply of_string_double|eapply of_int_double]; eassumption.
    - eapply of_string_double. exact Hx. }
  destruct (conv g) as [x|]; [|discriminate]. cbn [bind] in H.
  destruct (Float.to_int x) as [n|] eqn:Hn; [|discriminate].
  injection H as <-. exists n. split; [reflexivity|].
  eapply to_int_double; [apply Hprice; reflexivity|exact Hn].
Qed.

Lemma price_converters entry :
  In entry price_patterns -> snd entry = times_million \/ snd entry = as_is.
Proof.
  unfold price_patterns. cbn [In].
  intros [<-|[<-|[<-|[<-|[<-|[<-|[]]]]]]]; cbn [snd]; auto.
Qed.

Lemma first_price_in patterns query_lower price :
  first_price patterns query_lower = Some price ->
  exists entry, In entry patterns /\ parsed_match entry query_lower = Some price.
Proof.
  induction patterns as [|head rest IH]; [discriminate|].
  rewrite first_price_cons.
  destruct (parsed_match head query_lower) as [w|] eqn:Hhead.
  - intros [= <-]. exists head. split; [now left|exact Hhead].
  - intros H. destruct (IH H) as (entry & Hin & Hentry).
    exists entry. split; [now right|exact Hentry].
Qed.

(** every price ceiling the interpreter writes is such a number *)
Lemma interpreted_price_ok query_lower :
  exists hi, first_price price_patterns query_lower = option_map str_int hi
             /\ price_ok hi.
Proof.
  destruct (first_price price_patterns query_lower) as [price|] eqn:Hloop.
  - destruct (first_price_in _ _ _ Hloop) as (entry & Hin & Hentry).
    unfold parsed_match in Hentry.
    destruct (Re.search (fst entry) query_lower) as [g|]; [|discriminate].
    destruct (convert_price (snd entry) g) as [s|] eqn:Hs; [|discriminate].
    injection Hentry as ->.
    destruct (convert_price_double _ _ _ (price_converters _ Hin) Hs)
      as (n & -> & Hn).
    exists (Some n). split; [reflexivity|exact Hn].
  - exists None. split; [reflexivity|exact I].
Qed.

(** ** The summary sentence *)

Lemma present_str_int n : present (Some (str_int n)) = true.
Proof.
  destruct (str_int_digits (Z.abs n) (Z.abs_nonneg n)) as (Hne & _).
  rewrite str_int_sign. simpl.
  destruct (n <? 0); [reflexivity|]. now destruct (str_int (Z.abs n)).
Qed.

Lemma display_plural t :
  get_default property_type_display t "properties" = plural_noun (Some t).
Proof.
  unfold property_type_display, plural_noun. cbn [get_default].
  rewrite !(String.eqb_sym _ t). reflexivity.
Qed.

Lemma plural_falsy t : present t = false -> plural_noun t = "properties".
Proof. destruct t as [[|c s]|]; simpl; [reflexivity|discriminate|reflexivity]. Qed.

(** the first part of the summary, after the property type is written *)
Lemma summary_head loc t :
  loc <> EmptyString ->
  (if present t then
     set_first ["Looking for properties in " ++ loc]
       ("Looking for " ++ get_default property_type_display (fmt t) "properties"
          ++ " in " ++ loc)
   else Ok ["Looking for properties in " ++ loc])
  = Ok ["Looking for " ++ plural_noun t ++ " in " ++ loc].
Proof.
  intros _. destruct (present t) eqn:Ht.
  - destruct t as [t|]; [|discriminate]. simpl fmt. now rewrite display_plural.
  - now rewrite (plural_falsy t Ht).
Qed.

Lemma summary_of_criteria (loc : string) (t : option string) (lo hi : option Z) :
  loc <> EmptyString -> price_ok lo -> price_ok hi ->
  generate_search_summary
    {| location := Some loc;
       min_price := option_map str_int lo;
       max_price := option_map str_int hi;
       property_type := t |}
  = Ok (summary_sentence loc t lo hi).
Proof.
  intros Hloc Hlo Hhi.
  unfold generate_search_summary, summary_sentence.
  cbn [location min_price max_price property_type].
  assert (Hpresent : present (Some loc) = true) by (now destruct loc).
  rewrite Hpresent. cbn [fmt]. rewrite (summary_head loc t Hloc). cbn [bind].
  destruct lo as [a|], hi as [b|]; cbn [option_map price_ok] in *;
    rewrite ?present_str_int;
    cbn [present andb];
    rewrite ?(price_number_str_int _ Hlo), ?(price_number_str_int _ Hhi);
    cbn [bind List.app Str.join price_clause];
    rewrite ?append_assoc; cbn [String.append];
    rewrite ?append_assoc, ?append_nil_r;
    reflexivity.
Qed.

(** the criteria of every query that names a location are summarised by
    the sentence *)
Corollary interpreted_query_summary (query : string) (crit : criteria) (loc : string) :
  extract_search_params query = Ok crit ->
  location crit = Some loc -> loc <> EmptyString ->
  exists hi,
    price_ok hi
    /\ max_price crit = option_map str_int hi
    /\ generate_search_summary crit
       = Ok (summary_sentence loc (property_type crit) None hi).
Proof.
  rewrite extract_search_params_location.
  destruct (extract_location query) as [l|e]; [|discriminate].
  destruct (interpreted_price_ok (Str.lower query)) as (hi & Hhi & Hok).
  rewrite Hhi. intros [= <-]. cbn [location max_price property_type].
  intros [= ->] Hloc.
  exists hi. split; [exact Hok|]. split; [reflexivity|].
  now apply (summary_of_criteria loc _ None hi).
Qed.




(** ** The normaliser *)

Lemma feature_dict fields key unit :
  feature (JObj fields) key unit = Ok (feature_if_true fields key unit).
Proof.
  unfold feature, feature_if_true, Py.get, Py.item. cbn [bind].
  destruct (Py.lookup fields key) as [v|]; [|reflexivity].
  now destruct (Py.truthy v).
Qed.

Lemma process_property_dict location prop p :
  process_property location prop = Ok p -> exists fields, prop = JObj fields.
Proof.
  destruct prop; try discriminate. eauto.
Qed.

(** C8, as the code behaves: the features of a normalised record are
    read in the order bedrooms, bathrooms, living area; a field that is
    there with a true value gives one string ("{n} bedrooms", "{n}
    bathrooms", "{n} sqft"), a field that is absent or whose value is
    zero, empty or [None] gives none. *)
Theorem features_follow_truth (location : string) (prop : json) (p : Property.t) :
  process_property location prop = Ok p ->
  exists fields, prop = JObj fields /\ Property.features p = features_by_truth fields.
Proof.
  intros H. destruct (process_property_dict _ _ _ H) as [fields ->].
  exists fields. split; [reflexivity|].
  unfold process_property in H. rewrite !feature_dict in H.
  bind_ok H. bind_ok H. bind_ok H. cbn [bind] in H.
  repeat bind_ok H.
  injection H as <-. reflexivity.
Qed.

Lemma features_follow_truth_witness :
  exists fields,
    JObj studio = JObj fields
    /\ Property.features
         {| Property.id := "7";
            Property.title := "Property in Boston";
            Property.price := 180000;
            Property.location := "Boston";
            Property.summary := "Property with 0 beds, 1 baths";
            Property.image_url := EmptyString;
            Property.features := ["1 bathrooms"] |}
       = features_by_truth fields.
Proof.
  apply (features_follow_truth "Boston, MA"). vm_compute. reflexivity.
Defined.

(** C8, as the claim words it, fails on the studio: its bedroom count is
    present, yet the listing has no bedroom feature. *)
Lemma studio_has_no_bedroom_feature :
  exists p,
    process_property "Boston, MA" (JObj studio) = Ok p
    /\ Py.lookup studio "bedrooms" = Some (JInt 0)
    /\ Property.features p = ["1 bathrooms"]
    /\ Property.features p <> features_by_presence studio.
Proof.
  eexists. split; [vm_compute; reflexivity|].
  split; [reflexivity|]. split; [reflexivity|]. vm_compute. discriminate.
Qed.

Lemma process_properties_app location before after :
  process_properties location (before ++ after)
  = (process_properties location before ++ process_properties location after)%list.
Proof.
  induction before as [|prop before IH]; [reflexivity|].
  simpl. destruct (process_property location prop); simpl; now rewrite IH.
Qed.

Lemma float_zero_text : bind (Py.float (JStr "0")) Float.to_int = Ok 0.
Proof. vm_compute. reflexivity. Qed.

(** C2, as the code behaves: a record with no [price] field is read as
    if its price were the text "0"; when it is kept its price is 0, and
    the records before and after it are normalised as they are without
    it. *)
Theorem absent_price_defaults_to_zero (location : string)
  (before after : list json) (fields : list (string * json)) :
  Py.lookup fields "price" = None ->
  process_properties location (before ++ JObj fields :: after)
  = (process_properties location before
     ++ process_properties location [JObj fields]
     ++ process_properties location after)%list
  /\ process_property location (JObj fields)
     = process_property location (JObj (("price", JStr "0") :: fields))
  /\ (forall p, process_property location (JObj fields) = Ok p ->
                Property.price p = 0).
Proof.
  intros Hnone. split; [|split].
  - rewrite process_properties_app.
    change (JObj fields :: after) with ([JObj fields] ++ after)%list.
    now rewrite process_properties_app.
  - unfold process_property, feature, Py.get, Py.item.
    cbn [Py.lookup String.eqb Ascii.eqb Bool.eqb]. now rewrite Hnone.
  - intros p H. unfold process_property in H.
    unfold Py.get at 1 in H. rewrite Hnone in H. cbn [bind] in H.
    change (Str.remove "," (Str.remove "$" "0")) with "0" in H.
    pose proof float_zero_text as Hz. unfold bind in Hz.
    destruct (Py.float (JStr "0")) as [x|]; [|discriminate].
    cbn [bind] in H. rewrite Hz in H. cbn [bind] in H.
    rewrite !feature_dict in H. cbn [bind] in H.
    repeat bind_ok H. injection H as <-. reflexivity.
Qed.

Lemma absent_price_defaults_to_zero_witness :
  process_properties "Boston, MA" ([JObj studio] ++ JObj unpriced :: [JInt 3])
  = (process_properties "Boston, MA" [JObj studio]
     ++ process_properties "Boston, MA" [JObj unpriced]
     ++ process_properties "Boston, MA" [JInt 3])%list
  /\ process_property "Boston, MA" (JObj unpriced)
     = process_property "Boston, MA" (JObj (("price", JStr "0") :: unpriced))
  /\ (forall p, process_property "Boston, MA" (JObj unpriced) = Ok p ->
                Property.price p = 0).
Proof.
  apply (absent_price_defaults_to_zero "Boston, MA" [JObj studio] [JInt 3] unpriced).
  reflexivity.
Defined.

(** C2, as the claim words it, fails on a record with no [price]: the
    record is kept, with price 0. *)
Lemma unpriced_record_is_kept :
  Py.lookup unpriced "price" = None
  /\ process_property "Boston, MA" (JObj unpriced) = Ok unpriced_listing
  /\ In unpriced_listing
       (process_properties "Boston, MA" [JObj studio; JObj unpriced; JInt 3]).
Proof.
  split; [reflexivity|]. split; [vm_compute; reflexivity|].
  vm_compute. right. left. reflexivity.
Qed.

(** ** Enrichment *)

Lemma overview_of_failure w location :
  enrichment_failed (groq w (overview_prompt location)) ->
  generate_location_overview w location = JNull.
Proof.
  unfold generate_location_overview.
  destruct (groq w (overview_prompt location)) as [| |status text body];
    try reflexivity.
  intros [Hstatus|[e He]].
  - unfold location_overview_body.
    destruct (Z.eqb_spec status 200); [contradiction|reflexivity].
  - now rewrite He.
Qed.

(** the request depends on the enrichment through the overview only *)
Lemma search_properties_overview w answer query :
  match search_properties (with_groq w answer) query with
  | Ok r =>
      exists r0 loc,
        search_properties w query = Ok r0
        /\ without_overview r0 = without_overview r
        /\ extract_location query = Ok loc
        /\ location_overview r0 = generate_location_overview w loc
  | Raise e => search_properties w query = Raise e
  end.
Proof.
  unfold search_properties, search_properties_body.
  rewrite extract_search_params_location.
  destruct (extract_location query) as [loc|e]; [|now destruct e].
  cbn [bind location min_price max_price property_type fmt].
  destruct (negb (present (Some loc))); [reflexivity|].
  destruct (generate_search_summary _) as [summary|e]; [|now destruct e].
  cbn [bind].
  change (search_zillow (with_groq w answer)) with (search_zillow w).
  destruct (search_zillow w loc None _ _) as [[|p ps]|e].
  - eexists _, loc. repeat split.
  - eexists _, loc. repeat split.
  - now destruct e.
Qed.

(** C9: when the enrichment call for the location of the query fails,
    the overview is [None], and the request ends as it would with any
    other answer of the provider: with the same error, or with the same
    response but for the overview. *)
Theorem enrichment_failure_absorbed (w : world) (query : string)
  (answer : string -> http_outcome) :
  (forall loc, extract_location query = Ok loc ->
               enrichment_failed (groq w (overview_prompt loc))) ->
  (forall loc, extract_location query = Ok loc ->
               generate_location_overview w loc = JNull)
  /\ match search_properties (with_groq w answer) query with
     | Ok r => search_properties w query = Ok (without_overview r)
     | Raise e => search_properties w query = Raise e
     end.
Proof.
  intros Hfail.
  assert (Hnone : forall loc, extract_location query = Ok loc ->
                              generate_location_overview w loc = JNull).
  { intros loc Hloc. apply overview_of_failure, Hfail, Hloc. }
  split; [exact Hnone|].
  pose proof (search_properties_overview w answer query) as H.
  destruct (search_properties (with_groq w answer) query) as [r|e]; [|exact H].
  destruct H as (r0 & loc & Hr0 & Hsame & Hloc & Hover).
  rewrite Hr0. f_equal. rewrite <- Hsame.
  rewrite (Hnone loc Hloc) in Hover. destruct r0; simpl in *. now subst.
Qed.

Lemma enrichment_failure_absorbed_witness :
  (forall loc, extract_location "condos in Boston" = Ok loc ->
               generate_location_overview (boston_world groq_down) loc = JNull)
  /\ match search_properties (with_groq (boston_world groq_down) groq_up)
             "condos in Boston" with
     | Ok r => search_properties (boston_world groq_down) "condos in Boston"
               = Ok (without_overview r)
     | Raise e => search_properties (boston_world groq_down) "condos in Boston"
                  = Raise e
     end.
Proof.
  apply (enrichment_failure_absorbed (boston_world groq_down) "condos in Boston" groq_up).
  intros loc _. left. discriminate.
Defined.

(** the two requests of the witness, evaluated *)
Example boston_request_without_overview :
  search_properties (boston_world groq_down) "condos in Boston"
  = Ok {| results := [unpriced_listing];
          static_page_url := Some "/static/20240101-120000-condos-in-boston.html";
          search_summary := "Looking for condominiums in Boston, MA";
          location_overview := JNull |}
  /\ search_properties (boston_world groq_up) "condos in Boston"
     = Ok {| results := [unpriced_listing];
             static_page_url := Some "/static/20240101-120000-condos-in-boston.html";
             search_summary := "Looking for condominiums in Boston, MA";
             location_overview := JStr "# Boston" |}.
Proof. split; vm_compute; reflexivity. Qed.

(** * Further properties *)

(** ** The matcher *)

Lemma match_star p r s g :
  Re.match_here (Re.Item p Re.Star :: r) s g
  = match s with
    | String c s' =>
        if p c
        then Re.or_else (Re.match_here (Re.Item p Re.Star :: r) s' (Re.push g c))
               (Re.match_here r s g)
        else Re.match_here r s g
    | EmptyString => Re.match_here r s g
    end.
Proof. destruct s; reflexivity. Qed.

Lemma match_plus p r s g :
  Re.match_here (Re.Item p Re.Plus :: r) s g
  = match s with
    | String c s' =>
        if p c then Re.match_here (Re.Item p Re.Star :: r) s' (Re.push g c)
        else None
    | EmptyString => None
    end.
Proof. destruct s; reflexivity. Qed.

Lemma match_once p r s g :
  Re.match_here (Re.Item p Re.Once :: r) s g
  = match s with
    | String c s' => if p c then Re.match_here r s' (Re.push g c) else None
    | EmptyString => None
    end.
Proof. destruct s; reflexivity. Qed.

Lemma match_opt p r s g :
  Re.match_here (Re.Item p Re.Opt :: r) s g
  = match s with
    | String c s' =>
        if p c
        then Re.or_else (Re.match_here r s' (Re.push g c)) (Re.match_here r s g)
        else Re.match_here r s g
    | EmptyString => Re.match_here r s g
    end.
Proof. destruct s; reflexivity. Qed.

Lemma match_open r s g :
  Re.match_here (Re.GroupOpen :: r) s g = Re.match_here r s (Re.Inside EmptyString).
Proof. reflexivity. Qed.

Lemma or_else_some {A} (x y : option A) (v : A) :
  Re.or_else x y = Some v -> x = Some v \/ y = Some v.
Proof. destruct x; simpl; auto. Qed.

(** a property of the capture that every step of a pattern keeps holds
    of the capture of a match *)
Lemma match_here_keeps (I : Re.capture -> Prop) (r : Re.regex) :
  (forall p q, In (Re.Item p q) r ->
               forall cap c, I cap -> p c = true -> I (Re.push cap c)) ->
  (In Re.GroupOpen r -> I (Re.Inside EmptyString)) ->
  (In Re.GroupClose r -> forall cap, I cap -> I (Re.close cap)) ->
  forall s cap g, I cap -> Re.match_here r s cap = Some g -> I g.
Proof.
  induction r as [|node r IH]; intros Hpush Hopen Hclose.
  - intros s cap g Hcap [= <-]. exact Hcap.
  - assert (IHr : forall s cap g, I cap -> Re.match_here r s cap = Some g -> I g).
    { apply IH.
      - intros p q Hin. apply (Hpush p q). now right.
      - intros Hin. apply Hopen. now right.
      - intros Hin. apply Hclose. now right. }
    destruct node as [p q| |].
    + assert (Hp : forall cap c, I cap -> p c = true -> I (Re.push cap c)).
      { apply (Hpush p q). now left. }
      assert (Hstar : forall s cap g, I cap ->
                Re.match_here (Re.Item p Re.Star :: r) s cap = Some g -> I g).
      { induction s as [|c s IHs]; intros cap g Hcap; rewrite match_star.
        - apply IHr, Hcap.
        - destruct (p c) eqn:Hc; [|apply IHr, Hcap].
          intros [H|H]%or_else_some; [|apply (IHr _ _ _ Hcap H)].
          apply (IHs _ _ (Hp _ _ Hcap Hc) H). }
      destruct q; intros s cap g Hcap.
      * rewrite match_once. destruct s as [|c s]; [discriminate|].
        destruct (p c) eqn:Hc; [|discriminate]. apply IHr. now apply Hp.
      * rewrite match_opt. destruct s as [|c s]; [apply IHr, Hcap|].
        destruct (p c) eqn:Hc; [|apply IHr, Hcap].
        intros [H|H]%or_else_some; [|apply (IHr _ _ _ Hcap H)].
        apply (IHr _ _ _ (Hp _ _ Hcap Hc) H).
      * apply Hstar, Hcap.
      * rewrite match_plus. destruct s as [|c s]; [discriminate|].
        destruct (p c) eqn:Hc; [|discriminate]. apply Hstar. now apply Hp.
    + intros s cap g _. cbn [Re.match_here]. apply IHr, Hopen. now left.
    + intros s cap g Hcap. cbn [Re.match_here]. apply IHr, Hclose; [now left|exact Hcap].
Qed.

(** the tests before the group leave the capture as it is *)
Lemma match_before_group (pre r : Re.regex) s g :
  Forall is_item pre ->
  Re.match_here (pre ++ r)%list s Re.Before = Some g ->
  exists s', Re.match_here r s' Re.Before = Some g.
Proof.
  intros Hpre H.
  revert s H. induction Hpre as [|node pre Hnode Hpre IH]; intros s H; [eauto|].
  destruct node as [p q| |]; try contradiction. cbn [List.app] in H.
  assert (Hstar : forall s, Re.match_here (Re.Item p Re.Star :: pre ++ r)%list s Re.Before
                            = Some g ->
                            exists s', Re.match_here r s' Re.Before = Some g).
  { clear s H. induction s as [|c s IHs]; rewrite match_star; [apply IH|].
    destruct (p c); [|apply IH].
    intros [H|H]%or_else_some; [apply IHs, H|apply (IH _ H)]. }
  destruct q.
  - rewrite match_once in H. destruct s as [|c s]; [discriminate|].
    destruct (p c); [apply (IH _ H)|discriminate].
  - rewrite match_opt in H. destruct s as [|c s]; [apply (IH _ H)|].
    destruct (p c); [|apply (IH _ H)].
    apply or_else_some in H as [H|H]; apply (IH _ H).
  - apply (Hstar _ H).
  - rewrite match_plus in H. destruct s as [|c s]; [discriminate|].
    destruct (p c); [apply (Hstar _ H)|discriminate].
Qed.

Lemma search_some r s g :
  Re.search r s = Some g ->
  exists s' cap, Re.match_here r s' Re.Before = Some cap /\ g = Re.group1 cap.
Proof.
  induction s as [|c s IH]; cbn [Re.search].
  - destruct (Re.match_here r EmptyString Re.Before) as [cap|] eqn:Hm;
      [intros [= <-]; eauto|discriminate].
  - destruct (Re.match_here r (String c s) Re.Before) as [cap|] eqn:Hm;
      [intros [= <-]; eauto|exact IH].
Qed.

(** ** The location *)

Lemma all_chars_app p a b :
  all_chars p (a ++ b) = all_chars p a && all_chars p b.
Proof. induction a as [|c a IH]; simpl; [reflexivity|]. now rewrite IH, andb_assoc. Qed.

Lemma all_chars_lstrip p q s :
  all_chars p s = true -> all_chars p (Str.lstrip_with q s) = true.
Proof.
  induction s as [|c s IH]; [reflexivity|]. cbn [Str.lstrip_with].
  destruct (q c); [|trivial]. simpl. intros [_ H]%andb_true_iff. now apply IH.
Qed.

Lemma all_chars_rstrip p q s :
  all_chars p s = true -> all_chars p (Str.rstrip_with q s) = true.
Proof.
  induction s as [|c s IH]; [reflexivity|]. cbn [Str.rstrip_with all_chars].
  intros [Hc Hs]%andb_true_iff. specialize (IH Hs).
  destruct (Str.rstrip_with q s).
  - destruct (q c); simpl; [reflexivity|now rewrite Hc].
  - cbn [all_chars] in *. now rewrite Hc.
Qed.

Lemma all_chars_strip p s :
  all_chars p s = true -> all_chars p (Str.strip s) = true.
Proof. intros H. now apply all_chars_rstrip, all_chars_lstrip. Qed.

Lemma lit_items s : Forall is_item (Re.lit s).
Proof. induction s; simpl; constructor; simpl; auto. Qed.

Lemma add_state_chars location :
  all_chars location_char location = true ->
  all_chars location_char (add_state location) = true.
Proof.
  intros H. unfold add_state.
  repeat match goal with
         | |- context [if ?b then _ else _] => destruct b
         end; rewrite ?all_chars_app, ?H; reflexivity.
Qed.

Lemma search_suffix r s g :
  Re.search r s = Some g ->
  exists before s' cap,
    s = before ++ s'
    /\ Re.match_here r s' Re.Before = Some cap /\ g = Re.group1 cap.
Proof.
  induction s as [|c s IH]; cbn [Re.search].
  - destruct (Re.match_here r EmptyString Re.Before) as [cap|] eqn:Hm;
      [intros [= <-]|discriminate].
    exists EmptyString, EmptyString, cap. auto.
  - destruct (Re.match_here r (String c s) Re.Before) as [cap|] eqn:Hm.
    + intros [= <-]. exists EmptyString, (String c s), cap. auto.
    + intros (before & s' & cap & -> & Hcap & ->)%IH.
      exists (String c before), s', cap. auto.
Qed.

Lemma lit_i_app a b : Re.lit_i (a ++ b) = (Re.lit_i a ++ Re.lit_i b)%list.
Proof. induction a as [|c a IH]; [reflexivity|]. cbn. now rewrite IH. Qed.

(** a literal under [re.IGNORECASE] consumes a text that differs from it
    by case only *)
Lemma lit_i_prefix w r s g :
  Re.match_here (Re.lit_i w ++ r)%list s Re.Before = Some g ->
  exists m s',
    s = m ++ s' /\ Str.lower m = Str.lower w
    /\ Re.match_here r s' Re.Before = Some g.
Proof.
  revert s. induction w as [|c w IH]; intros s.
  - intros H. exists EmptyString, s. auto.
  - cbn [Re.lit_i List.app]. rewrite match_once.
    destruct s as [|x s]; [discriminate|].
    unfold Re.chr_i at 1. destruct (Ascii.eqb_spec (Char.lower x) (Char.lower c)) as [Hx|];
      [|discriminate].
    cbn [Re.push]. intros (m & s' & -> & Hm & H)%IH.
    exists (String x m), s'. cbn [String.append Str.lower]. now rewrite Hx, Hm.
Qed.

(** a greedy class that ends the pattern takes the whole run *)
Lemma star_run p s acc :
  exists g after,
    s = g ++ after /\ all_chars p g = true /\ ends_run p after
    /\ Re.match_here [Re.Item p Re.Star; Re.GroupClose] s (Re.Inside acc)
       = Some (Re.Closed (acc ++ g)).
Proof.
  revert acc. induction s as [|c s IH]; intros acc; rewrite match_star.
  - exists EmptyString, EmptyString. cbn. now rewrite append_nil_r.
  - destruct (p c) eqn:Hc.
    + destruct (IH (acc ++ String c EmptyString)) as (g & after & -> & Hg & Hafter & Hm).
      exists (String c g), after. cbn [Re.push]. rewrite Hm.
      cbn [Re.or_else all_chars String.append]. rewrite Hc, Hg.
      rewrite append_assoc. cbn [String.append]. auto.
    + exists EmptyString, (String c s). cbn. now rewrite append_nil_r.
Qed.

Lemma group_run p s cap :
  Re.match_here [Re.GroupOpen; Re.Item p Re.Plus; Re.GroupClose] s Re.Before
  = Some cap ->
  exists g after,
    s = g ++ after /\ g <> EmptyString /\ all_chars p g = true
    /\ ends_run p after /\ Re.group1 cap = g.
Proof.
  rewrite match_open, match_plus. destruct s as [|c s]; [discriminate|].
  destruct (p c) eqn:Hc; [|discriminate]. cbn [Re.push String.append].
  destruct (star_run p s (String c EmptyString)) as (g & after & -> & Hg & Hafter & ->).
  intros [= <-]. exists (String c g), after.
  cbn [all_chars String.append Re.group1]. rewrite Hc, Hg.
  repeat split; trivial. discriminate.
Qed.

(** what a location pattern captures: the whole run of class characters
    after the first place where the word and a space stand before one *)
Lemma location_capture word query g :
  Re.search (location_pattern word) query = Some g ->
  exists before m after,
    query = before ++ m ++ g ++ after
    /\ Str.lower m = Str.lower (word ++ " ")
    /\ g <> EmptyString
    /\ all_chars location_char g = true
    /\ ends_run location_char after.
Proof.
  intros (before & s & cap & -> & Hm & ->)%search_suffix.
  unfold location_pattern in Hm. rewrite List.app_assoc, <- lit_i_app in Hm.
  apply lit_i_prefix in Hm as (m & s' & -> & Hlower & Hm).
  apply group_run in Hm as (g & after & -> & Hne & Hg & Hafter & ->).
  exists before, m, after. auto.
Qed.

Lemma first_location_word words query loc :
  first_location (map location_pattern words) query = Some loc ->
  exists word g,
    In word words
    /\ Re.search (location_pattern word) query = Some g
    /\ loc = add_state (Str.strip g).
Proof.
  induction words as [|word words IH]; [discriminate|].
  cbn [map first_location].
  destruct (Re.search (location_pattern word) query) as [g|] eqn:Hg.
  - intros [= <-]. exists word, g. cbn. auto.
  - intros (w & g & Hin & Hs & ->)%IH. exists w, g. cbn. auto.
Qed.

(** X1: when one of the patterns "in X", "at X", "near X" matches, what
    it captures is a whole run of characters of the class [[A-Za-z\s,]]:
    the query holds the pattern's word and a space, in any case, then
    the capture, which is not empty and goes on to the end of the query
    or to the first character outside the class (a digit, a hyphen, an
    apostrophe, a dollar sign), so every word that follows the place
    name up to there is taken in.  The location returned is the capture,
    stripped, with the state of a known city; it holds characters of the
    class only. *)
Theorem pattern_location_is_whole_run (query loc : string) :
  ~ no_preposition query ->
  extract_location query = Ok loc ->
  exists word before m g after,
    In word location_words
    /\ query = before ++ m ++ g ++ after
    /\ Str.lower m = word ++ " "
    /\ g <> EmptyString
    /\ all_chars location_char g = true
    /\ ends_run location_char after
    /\ loc = add_state (Str.strip g)
    /\ all_chars location_char loc = true.
Proof.
  intros Hsome. unfold extract_location.
  destruct (first_location location_patterns query) as [l|] eqn:Hfirst.
  - intros [= <-].
    change location_patterns with (map location_pattern location_words) in Hfirst.
    apply first_location_word in Hfirst as (word & g & Hin & Hg & ->).
    apply location_capture in Hg as (before & m & after & -> & Hm & Hne & Hchars & Hafter).
    exists word, before, m, g, after.
    repeat split; trivial.
    + destruct Hin as [<-|[<-|[<-|[]]]]; exact Hm.
    + now apply add_state_chars, all_chars_strip.
  - exfalso. apply Hsome. unfold location_patterns in Hfirst.
    cbn [first_location] in Hfirst. unfold no_preposition.
    destruct (Re.search (location_pattern "in") query); [discriminate|].
    destruct (Re.search (location_pattern "at") query); [discriminate|].
    destruct (Re.search (location_pattern "near") query); [discriminate|].
    auto.
Qed.

Lemma pattern_location_is_whole_run_witness :
  exists word before m g after,
    In word location_words
    /\ chicago_query = before ++ m ++ g ++ after
    /\ Str.lower m = word ++ " "
    /\ g <> EmptyString
    /\ all_chars location_char g = true
    /\ ends_run location_char after
    /\ "Chicago under" = add_state (Str.strip g)
    /\ all_chars location_char "Chicago under" = true.
Proof.
  apply (pattern_location_is_whole_run chicago_query).
  - intros (_ & _ & Hnear). vm_compute in Hnear. discriminate Hnear.
  - vm_compute. reflexivity.
Defined.

(** ** The price ceiling *)

Lemma number_group_digit (rest : Re.regex) s cap :
  ~ In Re.GroupOpen rest ->
  Re.match_here (Re.GroupOpen :: Re.Item Char.isdecimal Re.Plus :: rest) s Re.Before
  = Some cap ->
  exists c t, Re.group1 cap = String c t /\ Char.isdecimal c = true.
Proof.
  intros Hopen. rewrite match_open, match_plus.
  destruct s as [|c s]; [discriminate|].
  destruct (Char.isdecimal c) eqn:Hc; [|discriminate].
  cbn [Re.push String.append]. intros H.
  assert (HI : exists t, cap = Re.Inside (String c t) \/ cap = Re.Closed (String c t)).
  { revert H.
    apply (match_here_keeps
             (fun g => exists t, g = Re.Inside (String c t)
                                 \/ g = Re.Closed (String c t))).
    - intros p q _ g x [t [-> | ->]] _; cbn [Re.push String.append]; eauto.
    - intros [Heq|Hin]; [discriminate Heq|contradiction].
    - intros _ g [t [-> | ->]]; cbn [Re.close]; eauto.
    - eauto. }
  destruct HI as [t [-> | ->]]; cbn [Re.group1]; eauto.
Qed.

Lemma price_group_digit entry query_lower g :
  In entry price_patterns ->
  Re.search (fst entry) query_lower = Some g ->
  exists c t, g = String c t /\ Char.isdecimal c = true.
Proof.
  intros Hin (s & cap & Hm & ->)%search_some.
  assert (Hitems : Forall is_item under /\ Forall is_item less_than
                   /\ Forall is_item dollar).
  { unfold under, less_than, dollar, optional.
    repeat split; repeat (apply Forall_app; split);
      try apply lit_items; repeat constructor. }
  destruct Hitems as (Hunder & Hless & Hdollar).
  assert (Hnumber : forall s', (Re.match_here number_million s' Re.Before = Some cap
                                \/ Re.match_here number_plain s' Re.Before = Some cap) ->
            exists c t, Re.group1 cap = String c t /\ Char.isdecimal c = true).
  { intros s' [H|H]; revert H; apply number_group_digit;
      cbn; intuition discriminate. }
  unfold price_patterns in Hin. cbn [In] in Hin.
  destruct Hin as [<-|[<-|[<-|[<-|[<-|[<-|[]]]]]]]; cbn [fst] in Hm;
    apply match_before_group in Hm as [s' Hm]; eauto.
Qed.

Lemma of_ratio_sign neg n d : negative (Float.of_ratio neg n d) = neg.
Proof.
  unfold Float.of_ratio. destruct (n <=? 0); [reflexivity|].
  destruct (Float.scale n d _) as [n' d']. now destruct (_ && _).
Qed.

Lemma rstrip_keeps_first p c t :
  p c = false -> exists t', Str.rstrip_with p (String c t) = String c t'.
Proof.
  intros Hc. cbn [Str.rstrip_with]. rewrite Hc.
  destruct (Str.rstrip_with p t); eauto.
Qed.

Lemma take_sign_digit c t :
  Float.isdigit c = true -> Float.take_sign (String c t) = (false, String c t).
Proof.
  intros Hc. unfold Float.take_sign.
  destruct (Ascii.eqb_spec c "-") as [->|]; [discriminate|].
  destruct (Ascii.eqb_spec c "+") as [->|]; [discriminate|].
  destruct c as [[] [] [] [] [] [] [] []]; try reflexivity; congruence.
Qed.

(** [float] of a text that starts with a digit is not negative *)
Lemma of_string_digit_first c t x :
  Float.isdigit c = true ->
  Float.of_string (String c t) = Ok x -> negative x = false.
Proof.
  intros Hc. unfold Float.of_string, Str.strip_with.
  cbn [Str.lstrip_with]. rewrite (isdigit_not_space _ Hc).
  destruct (rstrip_keeps_first Float.isspace c t (isdigit_not_space _ Hc))
    as [t' ->].
  destruct (negb _); [discriminate|].
  cbn [Str.remove]. rewrite (isdigit_not c "_" eq_refl Hc).
  rewrite (take_sign_digit _ _ Hc). unfold Float.of_unsigned.
  destruct (_ || _); [now intros [= <-]|].
  destruct (String.eqb _ _); [now intros [= <-]|].
  destruct (Float.parse_decimal _) as [[n k]|]; [|discriminate].
  intros [= <-]. unfold Float.of_decimal.
  destruct (0 <=? k); apply of_ratio_sign.
Qed.

Lemma of_int_sign z x : Float.of_int z = Ok x -> negative x = (z <? 0).
Proof.
  unfold Float.of_int.
  pose proof (of_ratio_sign (z <? 0) (Z.abs z) 1) as H.
  destruct (Float.of_ratio (z <? 0) (Z.abs z) 1); try discriminate;
    now intros [= <-].
Qed.

Lemma mul_sign x y :
  negative x = false -> negative y = false -> negative (Float.mul x y) = false.
Proof.
  destruct x as [|a|a m e], y as [|b|b n f]; cbn [negative Float.mul];
    intros Hx Hy; try subst a; try subst b; try reflexivity.
  - now destruct (n =? 0).
  - now destruct (m =? 0).
  - destruct (Float.scale _ _ _). apply of_ratio_sign.
Qed.

Lemma to_int_nonneg x n :
  double x -> negative x = false -> Float.to_int x = Ok n -> 0 <= n.
Proof.
  destruct x as [|neg|neg m e]; try discriminate.
  cbn [double negative Float.to_int]. intros [[Hm _] _] -> [= <-].
  destruct (Z.leb_spec 0 e).
  - apply Z.mul_nonneg_nonneg; [exact Hm|]. apply Z.pow_nonneg. lia.
  - apply Z.div_pos; [exact Hm|]. apply Z.pow_pos_nonneg; lia.
Qed.

(** what a converter returns for a text that starts with a digit is a
    double that is not negative *)
Lemma converter_natural conv c t x :
  conv = times_million \/ conv = as_is ->
  Char.isdecimal c = true ->
  conv (String c t) = Ok x -> double x /\ negative x = false.
Proof.
  intros [-> | ->] Hc.
  - unfold times_million.
    destruct (Float.of_string (String c t)) as [f|] eqn:Hf; [|discriminate].
    cbn [bind].
    destruct (Float.of_int 1000000) as [m|] eqn:Hm; [|discriminate].
    intros [= <-]. split.
    + apply mul_double; [eapply of_string_double|eapply of_int_double]; eassumption.
    + apply mul_sign; [eapply of_string_digit_first; eassumption|].
      now rewrite (of_int_sign _ _ Hm).
  - unfold as_is. cbn [Str.remove]. rewrite (isdigit_not c "," eq_refl Hc).
    intros Hx. split; [eapply of_string_double|eapply of_string_digit_first];
      eassumption.
Qed.

Lemma convert_price_natural conv c t s :
  conv = times_million \/ conv = as_is ->
  Char.isdecimal c = true ->
  convert_price conv (String c t) = Ok s ->
  exists n, 0 <= n /\ s = str_int n /\ double_int n = true.
Proof.
  intros Hconv Hc H. unfold convert_price in H.
  destruct (conv (String c t)) as [x|] eqn:Hx; [|discriminate H].
  cbn [bind] in H.
  destruct (Float.to_int x) as [n|] eqn:Hn; [|discriminate H].
  injection H as <-.
  destruct (converter_natural _ _ _ _ Hconv Hc Hx) as [Hdouble Hsign].
  pose proof (to_int_nonneg _ _ Hdouble Hsign Hn) as Hnonneg.
  exists n. split; [exact Hnonneg|]. split; [reflexivity|].
  rewrite <- (Z.abs_eq n Hnonneg). eapply to_int_double; eassumption.
Qed.

Lemma first_price_natural query_lower s :
  first_price price_patterns query_lower = Some s ->
  exists n, 0 <= n /\ s = str_int n /\ double_int n = true.
Proof.
  intros Hloop.
  destruct (first_price_in _ _ _ Hloop) as (entry & Hin & Hentry).
  unfold parsed_match in Hentry.
  destruct (Re.search (fst entry) query_lower) as [g|] eqn:Hg; [|discriminate].
  destruct (convert_price (snd entry) g) as [price|] eqn:Hprice; [|discriminate].
  injection Hentry as ->.
  destruct (price_group_digit _ _ _ Hin Hg) as (c & t & -> & Hc).
  apply (convert_price_natural _ _ _ _ (price_converters _ Hin) Hc Hprice).
Qed.

(** X2: the price ceiling of the criteria, when there is one, is the
    decimal text of a whole number that is not negative and that a
    double holds exactly: a string of digits, with no sign, no "$", no
    "," and no fraction. *)
Theorem price_ceiling_is_natural (query : string) (crit : criteria) (s : string) :
  extract_search_params query = Ok crit ->
  max_price crit = Some s ->
  exists n, 0 <= n /\ s = str_int n /\ double_int n = true
            /\ all_digits s = true.
Proof.
  rewrite extract_search_params_location.
  destruct (extract_location query) as [loc|]; [|discriminate].
  remember (first_price price_patterns (Str.lower query)) as ceiling eqn:Hloop.
  intros [= <-]. cbn [max_price]. intros ->. symmetry in Hloop.
  destruct (first_price_natural _ _ Hloop) as (n & Hn & -> & Hd).
  exists n. repeat split; auto. now apply str_int_digits.
Qed.

Lemma price_ceiling_is_natural_witness :
  exists n, 0 <= n /\ "2000000" = str_int n /\ double_int n = true
            /\ all_digits "2000000" = true.
Proof.
  apply (price_ceiling_is_natural boston_query
           {| location := Some "Boston, MA"; min_price := None;
              max_price := Some "2000000";
              property_type := Some "SINGLE_FAMILY" |});
    vm_compute; reflexivity.
Defined.

(** ** The fallback of [extract_location] *)

Lemma split_aux_tokens s :
  forall cur w,
    all_chars nonspace cur = true ->
    In w (Str.split_aux s cur) ->
    w <> EmptyString /\ all_chars nonspace w = true.
Proof.
  induction s as [|c s IH]; intros cur w Hcur; cbn [Str.split_aux].
  - destruct cur; [intros []|]. intros [<-|[]]. split; [discriminate|exact Hcur].
  - destruct (Char.isspace c) eqn:Hc.
    + destruct cur.
      * apply IH. reflexivity.
      * intros [<-|Hin]; [split; [discriminate|exact Hcur]|].
        revert Hin. apply IH. reflexivity.
    + apply IH. rewrite all_chars_app, Hcur. cbn. unfold nonspace. now rewrite Hc.
Qed.

(** X3: when no pattern matches, a location returned is the first word
    of the query: it is not empty (so [words[0][0]] cannot raise), it
    holds no white space and it starts with an upper-case letter. *)
Theorem fallback_location_is_first_word (query loc : string) :
  no_preposition query ->
  extract_location query = Ok loc ->
  exists c rest others,
    loc = String c rest
    /\ Str.split query = loc :: others
    /\ Char.isupper c = true
    /\ all_chars nonspace loc = true.
Proof.
  intros Hnone. unfold extract_location.
  rewrite (first_location_none _ Hnone).
  destruct (Str.split query) as [|w others] eqn:Hsplit; [discriminate|].
  assert (Hw : w <> EmptyString /\ all_chars nonspace w = true).
  { apply (split_aux_tokens query EmptyString w eq_refl).
    unfold Str.split in Hsplit. rewrite Hsplit. now left. }
  destruct w as [|c rest]; [discriminate|].
  destruct (Char.isupper c) eqn:Hc; [|discriminate].
  intros [= <-]. exists c, rest, others. tauto.
Qed.

Lemma fallback_location_is_first_word_witness :
  exists c rest others,
    "Boston" = String c rest
    /\ Str.split "Boston condos under 500000" = "Boston" :: others
    /\ Char.isupper c = true
    /\ all_chars nonspace "Boston" = true.
Proof.
  apply (fallback_location_is_first_word "Boston condos under 500000" "Boston").
  - repeat split; vm_compute; reflexivity.
  - vm_compute. reflexivity.
Defined.

(** ** The state of a known city *)

Lemma contains_prefix sub s : prefix sub s = true -> Str.contains sub s = true.
Proof. intros H. destruct s; cbn [Str.contains]; now rewrite H. Qed.

Lemma contains_app_r sub a b :
  Str.contains sub b = true -> Str.contains sub (a ++ b) = true.
Proof.
  intros H. induction a as [|x a IH]; [exact H|].
  cbn [String.append Str.contains]. rewrite IH. apply orb_true_r.
Qed.

(** X4: the state of a known city is added once: a location that has
    been through [add_state] is left as it is by it. *)
Theorem add_state_once (location : string) :
  add_state (add_state location) = add_state location.
Proof.
  assert (Hfix : forall suffix, Str.contains "," suffix = true ->
            add_state (location ++ suffix) = location ++ suffix).
  { intros suffix H. unfold add_state. now rewrite (contains_app_r _ _ _ H). }
  unfold add_state at 2 3.
  destruct (Str.contains "," location) eqn:Hcomma.
  { unfold add_state. now rewrite Hcomma. }
  cbv zeta.
  repeat match goal with
         | |- context [if ?b then _ else _] => destruct b eqn:?
         end; try (apply Hfix; reflexivity).
  unfold add_state. rewrite Hcomma.
  repeat match goal with
         | H : ?b = false |- context [if ?b then _ else _] => rewrite H
         end.
  reflexivity.
Qed.

(** ** From the criteria to the request *)

Lemma property_type_known query_lower :
  exists z, In (extract_property_type query_lower, z) property_type_map
            /\ get_default property_type_map (extract_property_type query_lower)
                 EmptyString = z
            /\ Str.truthy z = true
            /\ plural_noun (Some (extract_property_type query_lower)) <> "properties".
Proof.
  unfold extract_property_type.
  repeat match goal with
         | |- context [if ?b then _ else _] => destruct b
         end;
    eexists; (split; [|split; [reflexivity|split; [reflexivity|discriminate]]]);
    cbn; auto 10.
Qed.

(** X5: the criteria of a query always hold one of the five property
    types of the provider table and no lower bound, so the request
    carries the location, the two fixed parameters, a [home_type], never
    a [price_min], and a [price_max] exactly when a price was read; and
    the summary never falls back to the noun "properties". *)
Theorem interpreted_request (query : string) (crit : criteria) :
  extract_search_params query = Ok crit ->
  exists loc t z,
    location crit = Some loc
    /\ property_type crit = Some t
    /\ In (t, z) property_type_map
    /\ plural_noun (Some t) <> "properties"
    /\ zillow_params loc (min_price crit) (max_price crit) t
       = ([("location", loc); ("status_type", "ForSale");
           ("sort", "Price_High_Low"); ("home_type", z)]
          ++ match max_price crit with
             | Some ceiling => [("price_max", ceiling)]
             | None => []
             end)%list.
Proof.
  rewrite extract_search_params_location.
  destruct (extract_location query) as [loc|]; [|discriminate].
  destruct (interpreted_price_ok (Str.lower query)) as (hi & Hhi & _).
  rewrite Hhi.
  destruct (property_type_known (Str.lower query)) as (z & Hin & Hz & Htrue & Hnoun).
  intros [= <-]. cbn [location min_price max_price property_type].
  exists loc, (extract_property_type (Str.lower query)), z.
  repeat split; auto.
  unfold zillow_params. rewrite Hz, Htrue. cbn [present].
  destruct hi as [n|]; cbn [option_map]; [|reflexivity].
  now rewrite present_str_int.
Qed.

Lemma interpreted_request_witness :
  exists loc t z,
    Some "Boston, MA" = Some loc
    /\ Some "SINGLE_FAMILY" = Some t
    /\ In (t, z) property_type_map
    /\ plural_noun (Some t) <> "properties"
    /\ zillow_params loc None (Some "2000000") t
       = ([("location", loc); ("status_type", "ForSale");
           ("sort", "Price_High_Low"); ("home_type", z)]
          ++ [("price_max", "2000000")])%list.
Proof.
  apply (interpreted_request boston_query
           {| location := Some "Boston, MA"; min_price := None;
              max_price := Some "2000000";
              property_type := Some "SINGLE_FAMILY" |}).
  vm_compute. reflexivity.
Defined.

(** ** The property type *)

Lemma lower_app a b : Str.lower (a ++ b) = Str.lower a ++ Str.lower b.
Proof. induction a as [|c a IH]; simpl; [reflexivity|now rewrite IH]. Qed.

Lemma prefix_app s b : prefix s (s ++ b) = true.
Proof.
  induction s as [|c s IH]; [now destruct b|]. cbn [String.append prefix].
  destruct (ascii_dec c c); [exact IH|contradiction].
Qed.

Lemma contains_middle sub a b : Str.contains sub (a ++ sub ++ b) = true.
Proof. apply contains_app_r, contains_prefix, prefix_app. Qed.

(** X6: the property type is decided by letters anywhere in the query,
    first match first: a query that holds "lot" or "land" in any case,
    even inside a word ("Charlotte", "Portland") and whatever else it
    names, gets the type LAND. *)
Theorem land_letters_win (before word after : string) (crit : criteria) :
  Str.lower word = "lot" \/ Str.lower word = "land" ->
  extract_search_params (before ++ word ++ after) = Ok crit ->
  property_type crit = Some "LAND".
Proof.
  intros Hword. rewrite extract_search_params_location.
  destruct (extract_location _) as [loc|]; [|discriminate].
  intros [= <-]. cbn [property_type]. f_equal.
  unfold extract_property_type. rewrite !lower_app.
  destruct Hword as [-> | ->]; rewrite contains_middle;
    [now rewrite orb_true_r|reflexivity].
Qed.

Lemma land_letters_win_witness :
  property_type
    {| location := Some "Charlotte under"; min_price := None;
       max_price := Some "300000"; property_type := Some "LAND" |}
  = Some "LAND".
Proof.
  apply (land_letters_win "condos in Char" "lot" "te under 300000").
  - left. reflexivity.
  - vm_compute. reflexivity.
Defined.

(** ** The summary without a location *)

(** X7: [generate_search_summary] needs the location before the
    property type: for criteria whose location is [None] or empty and
    whose property type is set, [summary_parts[0] = ...] raises
    [IndexError]. *)
Theorem summary_needs_location (crit : criteria) :
  present (location crit) = false ->
  present (property_type crit) = true ->
  generate_search_summary crit = Raise IndexError.
Proof.
  intros Hloc Htype. unfold generate_search_summary.
  now rewrite Hloc, Htype.
Qed.

Lemma summary_needs_location_witness :
  generate_search_summary
    {| location := None; min_price := None; max_price := Some "500000";
       property_type := Some "CONDO" |}
  = Raise IndexError.
Proof. apply summary_needs_location; reflexivity. Defined.

(** ** The summary of an interpreted query *)

(** X8: for the criteria of a query with a location that is not empty,
    [generate_search_summary] does not raise: the summary names one of
    the five plural nouns and the location and, when a price was read,
    ends with "priced under $" and that price, which is not negative;
    it never has a "between" or an "above" clause. *)
Theorem interpreted_summary (query : string) (crit : criteria) (loc : string) :
  extract_search_params query = Ok crit ->
  location crit = Some loc -> loc <> EmptyString ->
  exists t hi,
    property_type crit = Some t
    /\ plural_noun (Some t) <> "properties"
    /\ max_price crit = option_map str_int hi
    /\ (forall n, hi = Some n -> 0 <= n)
    /\ generate_search_summary crit
       = Ok ("Looking for " ++ plural_noun (Some t) ++ " in " ++ loc
               ++ match hi with
                  | Some n => " priced under $" ++ format_commas n
                  | None => EmptyString
                  end).
Proof.
  rewrite extract_search_params_location.
  destruct (extract_location query) as [l|]; [|discriminate].
  destruct (property_type_known (Str.lower query)) as (z & _ & _ & _ & Hnoun).
  assert (Hhi : exists hi,
             first_price price_patterns (Str.lower query) = option_map str_int hi
             /\ price_ok hi /\ forall n, hi = Some n -> 0 <= n).
  { destruct (first_price price_patterns (Str.lower query)) as [s|] eqn:Hloop.
    - destruct (first_price_natural _ _ Hloop) as (n & Hn & -> & Hd).
      exists (Some n). split; [reflexivity|]. split.
      + cbn [price_ok]. now rewrite Z.abs_eq.
      + now intros n' [= <-].
    - exists None. split; [reflexivity|]. split; [exact I|discriminate]. }
  destruct Hhi as (hi & -> & Hok & Hnonneg).
  intros [= <-]. cbn [location max_price property_type]. intros [= ->] Hloc.
  exists (extract_property_type (Str.lower query)), hi.
  repeat split; auto.
  rewrite (summary_of_criteria loc _ None hi Hloc I Hok).
  unfold summary_sentence, price_clause. now destruct hi.
Qed.

Lemma interpreted_summary_witness :
  exists t hi,
    Some "SINGLE_FAMILY" = Some t
    /\ plural_noun (Some t) <> "properties"
    /\ Some "2000000" = option_map str_int hi
    /\ (forall n, hi = Some n -> 0 <= n)
    /\ generate_search_summary
         {| location := Some "Boston, MA"; min_price := None;
            max_price := Some "2000000";
            property_type := Some "SINGLE_FAMILY" |}
       = Ok ("Looking for " ++ plural_noun (Some t) ++ " in " ++ "Boston, MA"
               ++ match hi with
                  | Some n => " priced under $" ++ format_commas n
                  | None => EmptyString
                  end).
Proof.
  apply (interpreted_summary boston_query
           {| location := Some "Boston, MA"; min_price := None;
              max_price := Some "2000000";
              property_type := Some "SINGLE_FAMILY" |} "Boston, MA").
  - vm_compute. reflexivity.
  - reflexivity.
  - discriminate.
Defined.

(** ** The loop over the records *)

(** X9: the listings returned are exactly the results of the records
    whose body does not raise, one per record and no more than there are
    records. *)
Theorem listings_come_from_records (location : string) (properties_data : list json) :
  (forall p, In p (process_properties location properties_data)
             <-> exists prop, In prop properties_data
                              /\ process_property location prop = Ok p)
  /\ (List.length (process_properties location properties_data)
      <= List.length properties_data)%nat.
Proof.
  induction properties_data as [|prop rest [IHin IHlen]].
  - split; [|auto]. intros p. split; [intros []|intros (x & [] & _)].
  - cbn [process_properties].
    destruct (process_property location prop) as [q|e] eqn:Hprop.
    + split; [|cbn [List.length]; lia]. intros p. cbn [In]. rewrite IHin. split.
      * intros [<-|(x & Hx & Hp)]; [exists prop; auto|exists x; auto].
      * intros (x & [<-|Hx] & Hp); [left; congruence|right; eauto].
    + split; [|cbn [List.length]; lia]. intros p. rewrite IHin. split.
      * intros (x & Hx & Hp). exists x. split; [now right|exact Hp].
      * intros (x & [<-|Hx] & Hp); [congruence|eauto].
Qed.

Lemma price_raises location fields e :
  listing_price fields = Raise e ->
  process_property location (JObj fields) = Raise e.
Proof.
  unfold listing_price, process_property. unfold Py.get at 1. cbn [bind].
  destruct (Py.float _) as [x|]; cbn [bind]; [|now intros [= ->]].
  destruct (Float.to_int x) as [price|]; cbn [bind];
    [discriminate|now intros [= ->]].
Qed.

Lemma price_kept location fields p :
  process_property location (JObj fields) = Ok p ->
  listing_price fields = Ok (Property.price p).
Proof.
  unfold listing_price, process_property. unfold Py.get at 1. cbn [bind].
  destruct (Py.float _) as [x|]; cbn [bind]; [|discriminate].
  destruct (Float.to_int x) as [price|]; cbn [bind]; [|discriminate].
  intros H. repeat bind_ok H. injection H as <-. reflexivity.
Qed.

(** X10: the price of a listing is read from the [price] entry alone (the
    text "0" when there is none): "$" and "," are removed from a text,
    the result goes through [float] and [int]; when that raises, for a
    text that is no number, for [None], for a list, the record is
    skipped. *)
Theorem price_entry_decides (location : string) (fields : list (string * json)) :
  (forall e, listing_price fields = Raise e ->
             process_property location (JObj fields) = Raise e)
  /\ (forall p, process_property location (JObj fields) = Ok p ->
                listing_price fields = Ok (Property.price p)).
Proof. split; [apply price_raises|apply price_kept]. Qed.

(** how prices are read *)
Example prices_read :
  listing_price (priced (JStr "$1,250,000")) = Ok 1250000
  /\ listing_price (priced (JInt 450000)) = Ok 450000
  /\ listing_price (priced (JFloat (Float.Fin false 9 (-1)))) = Ok 4
  /\ listing_price (priced (JStr "1.2e6")) = Ok 1200000
  /\ listing_price (priced (JStr "Contact agent")) = Raise ValueError
  /\ listing_price (priced (JStr EmptyString)) = Raise ValueError
  /\ listing_price (priced JNull) = Raise TypeError
  /\ listing_price (priced (JBool true)) = Ok 1
  /\ listing_price unpriced = Ok 0
  /\ process_properties "Boston, MA" [JObj (priced (JStr "Contact agent"))] = [].
Proof. repeat split; vm_compute; reflexivity. Qed.

Lemma address_part_strip fields key t :
  bind (Py.get (JObj fields) key (JStr EmptyString)) (fun v => Py.strip v) = Ok t ->
  exists s, address_part fields key = Some s /\ t = Str.strip s.
Proof.
  unfold Py.get, address_part. cbn [bind].
  destruct (Py.lookup fields key) as [[| | | |s| |]|]; cbn [Py.strip];
    try discriminate; intros [= <-]; eauto.
Qed.

(** X11: a record is kept only when each of [streetAddress], [city] and
    [state] is absent or a text: a [city] that is [None] or a number
    makes [.strip()] raise and the record is skipped.  The location of
    the listing is the stripped texts that are not empty, joined by
    ", ". *)
Theorem address_entries_are_text (location : string)
  (fields : list (string * json)) (p : Property.t) :
  process_property location (JObj fields) = Ok p ->
  exists street city state,
    address_part fields "streetAddress" = Some street
    /\ address_part fields "city" = Some city
    /\ address_part fields "state" = Some state
    /\ Property.location p
       = Str.join ", "
           (filter Str.truthy [Str.strip street; Str.strip city; Str.strip state]).
Proof.
  intros H. unfold process_property in H. repeat bind_ok H.
  injection H as <-. cbn [Property.location].
  repeat match goal with
         | E : bind (Py.get (JObj fields) _ (JStr EmptyString)) (fun v => Py.strip v)
               = Ok _ |- _ =>
             apply address_part_strip in E; destruct E as (? & ? & ->)
         end.
  do 3 eexists. repeat split; eassumption.
Qed.

Lemma address_entries_are_text_witness :
  exists street city state,
    address_part unpriced "streetAddress" = Some street
    /\ address_part unpriced "city" = Some city
    /\ address_part unpriced "state" = Some state
    /\ Property.location unpriced_listing
       = Str.join ", "
           (filter Str.truthy [Str.strip street; Str.strip city; Str.strip state]).
Proof.
  apply (address_entries_are_text "Boston, MA" unpriced unpriced_listing).
  vm_compute. reflexivity.
Defined.

(** a [city] that is [None] *)
Example null_city_is_skipped :
  address_part null_city "city" = None
  /\ process_property "Boston, MA" (JObj null_city) = Raise AttributeError
  /\ process_properties "Boston, MA" [JObj null_city; JObj unpriced]
     = [unpriced_listing].
Proof. repeat split; vm_compute; reflexivity. Qed.

(** X12: the image of a listing is the [imgSrc] entry when the record
    has one, the [imageUrl] entry otherwise, the empty text when it has
    neither; an entry read that is [None] makes the record be skipped,
    so a null [imgSrc] hides a valid [imageUrl]. *)
Theorem image_entry_preferred (location : string)
  (fields : list (string * json)) (p : Property.t) :
  process_property location (JObj fields) = Ok p ->
  image_field fields <> JNull
  /\ (forall s, image_field fields = JStr s -> Property.image_url p = s).
Proof.
  intros H. unfold process_property in H. repeat bind_ok H.
  injection H as <-. cbn [Property.image_url].
  match goal with
  | E : validate_str ?image = Ok ?u |- _ =>
      assert (Himage : image = image_field fields); [|rewrite Himage in E]
  end.
  { unfold Py.get in *. unfold image_field.
    repeat match goal with E : Ok _ = Ok _ |- _ => injection E as <- end.
    reflexivity. }
  match goal with E : validate_str _ = Ok _ |- _ => rename E into Hvalid end.
  split.
  - intros Hnull. rewrite Hnull in Hvalid. discriminate Hvalid.
  - intros s Hs. rewrite Hs in Hvalid. now injection Hvalid as <-.
Qed.

Lemma image_entry_preferred_witness :
  image_field unpriced <> JNull
  /\ (forall s, image_field unpriced = JStr s -> Property.image_url unpriced_listing = s).
Proof.
  apply (image_entry_preferred "Boston, MA" unpriced unpriced_listing).
  vm_compute. reflexivity.
Defined.

(** a null [imgSrc] beside a valid [imageUrl] *)
Example null_image_is_skipped :
  image_field null_image = JNull
  /\ process_property "Boston, MA" (JObj null_image) = Raise ValidationError.
Proof. split; vm_compute; reflexivity. Qed.

(** ** The provider call *)

Lemma search_zillow_body_dict status_code text fields location :
  error_status status_code = false ->
  Py.lookup fields "error" = None ->
  search_zillow_body (Response status_code text (Some (JObj fields))) location
  = if Py.truthy (properties_entry fields) then
      bind (Py.iter (properties_entry fields))
        (fun items => Ok (process_properties location items))
    else Raise (HTTPException 404 (Text ("No properties found in " ++ location))).
Proof.
  intros Hstatus Herr. unfold search_zillow_body, properties_entry.
  unfold error_status in Hstatus. rewrite Hstatus, Herr.
  unfold Py.get. cbn [bind].
  destruct (Py.lookup fields "results"), (Py.lookup fields "props");
    cbn [bind]; now destruct (Py.truthy _).
Qed.

Lemma search_zillow_body_timeout outcome location :
  search_zillow_body outcome location = Raise Timeout -> outcome = TimedOut.
Proof.
  destruct outcome as [| |status_code text body];
    [reflexivity|discriminate|]. intros H. exfalso.
  unfold search_zillow_body in H.
  destruct ((400 <=? status_code) && (status_code <? 600)).
  { destruct (status_code =? 401); [discriminate H|].
    destruct (status_code =? 429); discriminate H. }
  destruct body as [[| | | | | |fields]|]; try discriminate H.
  unfold Py.get in H.
  destruct (Py.lookup fields "error") as [err|].
  - destruct err; cbn [bind] in H; discriminate H.
  - cbn [bind] in H.
    destruct (negb (Py.truthy _)); [discriminate H|].
    destruct (Py.iter _) as [items|cause] eqn:Hiter; cbn [bind] in H;
      [discriminate H|].
    injection H as ->. unfold Py.iter in Hiter.
    destruct (match Py.lookup fields "props" with Some x => x | None => _ end);
      discriminate Hiter.
Qed.

Lemma search_zillow_raises w location min_price max_price property_type e :
  search_zillow w location min_price max_price property_type = Raise e ->
  (zillow w (zillow_params location min_price max_price property_type) = TimedOut
   /\ e = HTTPException 504 (Text "Zillow API request timed out"))
  \/ (zillow w (zillow_params location min_price max_price property_type) <> TimedOut
      /\ exists detail, e = HTTPException 500 detail).
Proof.
  unfold search_zillow.
  set (outcome := zillow w _).
  destruct (search_zillow_body outcome location) as [ps|cause] eqn:Hbody;
    [discriminate|].
  destruct cause; intros [= <-];
    try (right; split; [intros Hout; rewrite Hout in Hbody; discriminate|eauto]).
  left. split; [|reflexivity]. eapply search_zillow_body_timeout, Hbody.
Qed.

(** X13: every error of [search_zillow] has status 504 (exactly when the
    request to the provider timed out) or status 500: the statuses 401,
    429, 404 and 400 raised inside its [try] are caught by its own
    [except Exception] and come out as 500. *)
Theorem provider_errors_are_500_or_504 (w : world) (location : string)
  (min_price max_price : option string) (property_type : string) (e : exn) :
  search_zillow w location min_price max_price property_type = Raise e ->
  (zillow w (zillow_params location min_price max_price property_type) = TimedOut
   /\ e = HTTPException 504 (Text "Zillow API request timed out"))
  \/ (zillow w (zillow_params location min_price max_price property_type) <> TimedOut
      /\ exists detail, e = HTTPException 500 detail).
Proof. apply search_zillow_raises. Qed.

Lemma provider_errors_are_500_or_504_witness :
  (zillow (provider_world (Response 429 "slow down" None))
     (zillow_params "Boston, MA" None None "CONDO") = TimedOut
   /\ HTTPException 500
        (TextExc "Unexpected error: "
           (HTTPException 429 (Text "Too many requests to Zillow API")))
      = HTTPException 504 (Text "Zillow API request timed out"))
  \/ (zillow (provider_world (Response 429 "slow down" None))
        (zillow_params "Boston, MA" None None "CONDO") <> TimedOut
      /\ exists detail,
           HTTPException 500
             (TextExc "Unexpected error: "
                (HTTPException 429 (Text "Too many requests to Zillow API")))
           = HTTPException 500 detail).
Proof.
  apply (provider_errors_are_500_or_504
           (provider_world (Response 429 "slow down" None))
           "Boston, MA" None None "CONDO").
  vm_compute. reflexivity.
Defined.

(** X14: when the body of the provider's answer has a [props] entry that
    is empty (or [None], zero, [False]), [search_zillow] raises its "No
    properties found" error, wrapped as status 500, whatever the
    [results] entry holds: [results] is read only when [props] is
    absent. *)
Theorem empty_props_hide_results (w : world) (location : string)
  (min_price max_price : option string) (property_type : string)
  (status_code : Z) (text : string) (fields : list (string * json)) (v : json) :
  zillow w (zillow_params location min_price max_price property_type)
  = Response status_code text (Some (JObj fields)) ->
  error_status status_code = false ->
  Py.lookup fields "error" = None ->
  Py.lookup fields "props" = Some v ->
  Py.truthy v = false ->
  search_zillow w location min_price max_price property_type
  = Raise (HTTPException 500
             (TextExc "Unexpected error: "
                (HTTPException 404 (Text ("No properties found in " ++ location))))).
Proof.
  intros Hout Hstatus Herr Hprops Hfalse. unfold search_zillow.
  rewrite Hout, (search_zillow_body_dict _ _ _ _ Hstatus Herr).
  unfold properties_entry. now rewrite Hprops, Hfalse.
Qed.

Lemma empty_props_hide_results_witness :
  search_zillow (provider_world (Response 200 EmptyString (Some (JObj hidden_results))))
    "Boston, MA" None None "CONDO"
  = Raise (HTTPException 500
             (TextExc "Unexpected error: "
                (HTTPException 404 (Text ("No properties found in " ++ "Boston, MA"))))).
Proof.
  apply (empty_props_hide_results _ _ _ _ _ 200 EmptyString hidden_results (JArr []));
    reflexivity.
Defined.

(** X15: when the body of the provider's answer has an ["error"] entry,
    [search_zillow] returns no listing, whatever [props] holds: it raises
    status 500, wrapping the API error (status 400 inside the function)
    when the entry is a dictionary and the [AttributeError] of [.get]
    when it is not. *)
Theorem body_error_is_500 (w : world) (location : string)
  (min_price max_price : option string) (property_type : string)
  (status_code : Z) (text : string) (fields : list (string * json)) (err : json) :
  zillow w (zillow_params location min_price max_price property_type)
  = Response status_code text (Some (JObj fields)) ->
  error_status status_code = false ->
  Py.lookup fields "error" = Some err ->
  search_zillow w location min_price max_price property_type
  = Raise (HTTPException 500 (TextExc "Unexpected error: " (api_error_cause err))).
Proof.
  intros Hout Hstatus Herr. unfold search_zillow, search_zillow_body.
  unfold error_status in Hstatus. rewrite Hout, Hstatus, Herr.
  unfold Py.get. destruct err; reflexivity.
Qed.

Lemma body_error_is_500_witness :
  search_zillow
    (provider_world
       (Response 200 EmptyString
          (Some (JObj [("error", JStr "quota exceeded");
                       ("props", JArr [JObj unpriced])]))))
    "Boston, MA" None None "CONDO"
  = Raise (HTTPException 500
             (TextExc "Unexpected error: " (api_error_cause (JStr "quota exceeded")))).
Proof.
  apply (body_error_is_500 _ _ _ _ _ 200 EmptyString
           [("error", JStr "quota exceeded"); ("props", JArr [JObj unpriced])]
           (JStr "quota exceeded"));
    reflexivity.
Defined.

Lemma process_properties_no_dict location items :
  (forall prop, In prop items -> forall fields, prop <> JObj fields) ->
  process_properties location items = [].
Proof.
  induction items as [|prop items IH]; intros Hno; [reflexivity|].
  cbn [process_properties].
  destruct (process_property location prop) as [p|e] eqn:Hp.
  - destruct (process_property_dict _ _ _ Hp) as [fields ->].
    now destruct (Hno (JObj fields) (or_introl eq_refl) fields).
  - apply IH. intros x Hx. apply Hno. now right.
Qed.

(** X16: when [props] is a non-empty dictionary or a non-empty string
    instead of a list, the loop runs over its keys or its characters,
    every one of them is skipped, and [search_zillow] returns the empty
    list instead of raising. *)
Theorem keyed_props_give_no_listing (w : world) (location : string)
  (min_price max_price : option string) (property_type : string)
  (status_code : Z) (text : string) (fields : list (string * json)) (v : json) :
  zillow w (zillow_params location min_price max_price property_type)
  = Response status_code text (Some (JObj fields)) ->
  error_status status_code = false ->
  Py.lookup fields "error" = None ->
  Py.lookup fields "props" = Some v ->
  (exists item items, v = JObj (item :: items))
  \/ (exists c s, v = JStr (String c s)) ->
  search_zillow w location min_price max_price property_type = Ok [].
Proof.
  intros Hout Hstatus Herr Hprops Hshape. unfold search_zillow.
  rewrite Hout, (search_zillow_body_dict _ _ _ _ Hstatus Herr).
  unfold properties_entry. rewrite Hprops.
  destruct Hshape as [(item & items & ->)|(c & s & ->)]; cbn [Py.truthy Py.iter bind];
    rewrite process_properties_no_dict; try reflexivity;
    intros prop Hin fields' ->; apply in_map_iff in Hin;
    destruct Hin as (x & Hx & _); discriminate Hx.
Qed.

Lemma keyed_props_give_no_listing_witness :
  search_zillow (provider_world (Response 200 EmptyString (Some (JObj keyed_props))))
    "Boston, MA" None None "CONDO"
  = Ok [].
Proof.
  apply (keyed_props_give_no_listing _ _ _ _ _ 200 EmptyString keyed_props
           (JObj [("42", JObj unpriced)])); try reflexivity.
  left. eauto.
Defined.

(** ** The request as a whole *)

Lemma extract_location_raises query e :
  extract_location query = Raise e -> e = missing_location.
Proof.
  unfold extract_location.
  destruct (first_location location_patterns query); [discriminate|].
  destruct (Str.split query) as [|[|c rest] others]; try now intros [= <-].
  destruct (Char.isupper c); [discriminate|now intros [= <-]].
Qed.

(** the summary of what the interpreter returns never raises, once the
    location is not empty *)
Lemma interpreted_summary_ok query loc :
  loc <> EmptyString ->
  exists summary,
    generate_search_summary
      {| location := Some loc;
         min_price := None;
         max_price := first_price price_patterns (Str.lower query);
         property_type := Some (extract_property_type (Str.lower query)) |}
    = Ok summary.
Proof.
  intros Hloc.
  destruct (interpreted_price_ok (Str.lower query)) as (hi & -> & Hok).
  eexists. now apply (summary_of_criteria loc _ None hi).
Qed.

Lemma present_nonempty loc : present (Some loc) = false <-> loc = EmptyString.
Proof. destruct loc; simpl; split; congruence. Qed.

(** X17: every error of [search_properties] is an [HTTPException] with
    status 400, 500 or 504, and the status is 400 exactly when the
    interpreter finds no location or an empty one; an error status of the
    listing provider (401, 404, 429) never reaches the caller as such. *)
Theorem request_error_statuses (w : world) (query : string) (e : exn) :
  search_properties w query = Raise e ->
  exists status_code detail,
    e = HTTPException status_code detail
    /\ (status_code = 400 \/ status_code = 500 \/ status_code = 504)
    /\ (status_code = 400 <->
        extract_location query = Raise missing_location
        \/ extract_location query = Ok EmptyString).
Proof.
  unfold search_properties, search_properties_body.
  rewrite extract_search_params_location.
  destruct (extract_location query) as [loc|e0] eqn:Hloc.
  - cbn [bind location min_price max_price property_type fmt].
    destruct (present (Some loc)) eqn:Hpresent; cbn [negb].
    + assert (Hne : loc <> EmptyString).
      { intros Hempty. apply present_nonempty in Hempty. congruence. }
      destruct (interpreted_summary_ok query loc Hne) as [summary ->].
      cbn [bind].
      destruct (search_zillow w loc None _ _) as [[|p ps]|cause] eqn:Hz;
        try discriminate.
      destruct (search_zillow_raises _ _ _ _ _ _ Hz)
        as [[_ ->]|[_ [detail ->]]]; intros [= <-]; do 2 eexists;
        (split; [reflexivity|]); (split; [auto|]);
        (split; [discriminate|intros [H|H]; [discriminate H|congruence]]).
    + apply present_nonempty in Hpresent. subst loc. intros [= <-].
      do 2 eexists. split; [reflexivity|]. split; [auto|]. split; auto.
  - pose proof (extract_location_raises _ _ Hloc) as ->.
    cbn [bind]. intros [= <-].
    do 2 eexists. split; [reflexivity|]. split; [auto|]. split; auto.
Qed.

Lemma request_error_statuses_witness :
  exists status_code detail,
    HTTPException 500
      (TextExc "Unexpected error: "
         (HTTPException 429 (Text "Too many requests to Zillow API")))
    = HTTPException status_code detail
    /\ (status_code = 400 \/ status_code = 500 \/ status_code = 504)
    /\ (status_code = 400 <->
        extract_location "condos in Boston" = Raise missing_location
        \/ extract_location "condos in Boston" = Ok EmptyString).
Proof.
  apply (request_error_statuses
           (provider_world (Response 429 "slow down" None)) "condos in Boston").
  vm_compute. reflexivity.
Defined.

(** X18: a successful response of [search_properties] is put together
    from the criteria of the query, whose location is not empty: its
    summary is their summary, its results are the listings of
    [search_zillow] for them, its overview is the one generated for their
    location, and it has a page only when there is a listing. *)
Theorem response_parts (w : world) (query : string) (r : search_response) :
  search_properties w query = Ok r ->
  exists crit loc,
    extract_search_params query = Ok crit
    /\ location crit = Some loc /\ loc <> EmptyString
    /\ generate_search_summary crit = Ok (search_summary r)
    /\ search_zillow w loc (min_price crit) (max_price crit)
         (fmt (property_type crit)) = Ok (results r)
    /\ location_overview r = generate_location_overview w loc
    /\ static_page_url r
       = match results r with
         | [] => None
         | _ => generate_static_page w (results r) query (search_summary r)
         end.
Proof.
  unfold search_properties, search_properties_body.
  destruct (extract_search_params query) as [crit|e0]; [|now destruct e0].
  cbn [bind].
  destruct (location crit) as [loc|] eqn:Hloc; cbn [present negb fmt];
    [|discriminate].
  destruct (Str.truthy loc) eqn:Hpresent; cbn [negb]; [|discriminate].
  destruct (generate_search_summary crit) as [summary|e0] eqn:Hsummary;
    [|now destruct e0].
  cbn [bind].
  destruct (search_zillow w loc _ _ _) as [[|p ps]|cause] eqn:Hlistings;
    [| |now destruct cause];
    intros [= <-]; exists crit, loc; cbn [results search_summary
      location_overview static_page_url];
    repeat split; try reflexivity; try assumption;
    intros Hempty; rewrite Hempty in Hpresent; discriminate Hpresent.
Qed.

Lemma response_parts_witness :
  exists crit loc,
    extract_search_params "condos in Boston" = Ok crit
    /\ location crit = Some loc /\ loc <> EmptyString
    /\ generate_search_summary crit = Ok "Looking for condominiums in Boston, MA"
    /\ search_zillow (boston_world groq_up) loc (min_price crit) (max_price crit)
         (fmt (property_type crit)) = Ok [unpriced_listing]
    /\ JStr "# Boston" = generate_location_overview (boston_world groq_up) loc
    /\ Some "/static/20240101-120000-condos-in-boston.html"
       = generate_static_page (boston_world groq_up) [unpriced_listing]
           "condos in Boston" "Looking for condominiums in Boston, MA".
Proof.
  apply (response_parts (boston_world groq_up) "condos in Boston"
           {| results := [unpriced_listing];
              static_page_url := Some "/static/20240101-120000-condos-in-boston.html";
              search_summary := "Looking for condominiums in Boston, MA";
              location_overview := JStr "# Boston" |}).
  vm_compute. reflexivity.
Defined.

(** ** The name of the page *)

Lemma sub_runs_slug s : forall in_run,
  all_chars slug_or_dash (sub_runs (fun c => negb (slug_char c)) in_run s) = true.
Proof.
  induction s as [|c s IH]; intros in_run; [reflexivity|]. cbn [sub_runs].
  destruct (slug_char c) eqn:Hc; cbn [negb].
  - cbn [all_chars]. unfold slug_or_dash at 1. now rewrite Hc, IH.
  - destruct in_run; [apply IH|]. cbn [all_chars]. now rewrite IH.
Qed.

Lemma sub_runs_keeps p s : forall in_run,
  all_chars slug_or_dash s = true ->
  all_chars slug_or_dash (sub_runs p in_run s) = true.
Proof.
  induction s as [|c s IH]; intros in_run; [reflexivity|].
  cbn [sub_runs all_chars]. intros [Hc Hs]%andb_true_iff.
  destruct (p c).
  - destruct in_run; [now apply IH|]. cbn [all_chars]. now rewrite IH.
  - cbn [all_chars]. now rewrite Hc, IH.
Qed.

Lemma lstrip_first p s : first_is p (Str.lstrip_with p s) = false.
Proof.
  induction s as [|c s IH]; [reflexivity|]. cbn [Str.lstrip_with].
  destruct (p c) eqn:Hc; [exact IH|]. exact Hc.
Qed.

Lemma rstrip_first p s : first_is p s = false -> first_is p (Str.rstrip_with p s) = false.
Proof.
  destruct s as [|c t]; [reflexivity|]. cbn [first_is]. intros Hc.
  destruct (rstrip_keeps_first p c t Hc) as [t' ->]. exact Hc.
Qed.

Lemma rstrip_last p s : last_is p (Str.rstrip_with p s) = false.
Proof.
  induction s as [|c s IH]; [reflexivity|]. cbn [Str.rstrip_with].
  destruct (Str.rstrip_with p s) as [|a t].
  - destruct (p c) eqn:Hc; [reflexivity|exact Hc].
  - exact IH.
Qed.

(** the second substitution leaves no two dashes in a row *)
Lemma sub_runs_single s : forall in_run,
  Str.contains "--" (sub_runs (Char.eq "-") in_run s) = false
  /\ first_is (Char.eq "-") (sub_runs (Char.eq "-") true s) = false.
Proof.
  induction s as [|c s IH]; intros in_run; [split; reflexivity|].
  destruct (IH true) as [Htrue Hfirst]. destruct (IH false) as [Hfalse _].
  cbn [sub_runs]. destruct (Char.eq "-" c) eqn:Hdash.
  - split; [|exact Hfirst]. destruct in_run; [exact Htrue|].
    cbn [Str.contains]. rewrite Htrue, orb_false_r.
    destruct (sub_runs (Char.eq "-") true s) as [|x t]; [reflexivity|].
    cbn [prefix first_is] in *. unfold Char.eq in Hfirst.
    destruct (ascii_dec "-" "-"); [|contradiction].
    destruct (ascii_dec "-" x) as [<-|]; [discriminate Hfirst|reflexivity].
  - split; [|exact Hdash].
    cbn [Str.contains prefix]. rewrite Hfalse, orb_false_r.
    destruct (ascii_dec "-" c) as [<-|]; [discriminate Hdash|reflexivity].
Qed.

Lemma lstrip_suffix p s : exists dropped, s = dropped ++ Str.lstrip_with p s.
Proof.
  induction s as [|c s [d IH]]; [now exists EmptyString|]. cbn [Str.lstrip_with].
  destruct (p c); [|now exists EmptyString].
  exists (String c d). cbn [String.append]. now rewrite <- IH.
Qed.

Lemma rstrip_prefix p s : exists dropped, s = Str.rstrip_with p s ++ dropped.
Proof.
  induction s as [|c s [d IH]]; [now exists EmptyString|]. cbn [Str.rstrip_with].
  destruct (Str.rstrip_with p s) as [|a t].
  - destruct (p c).
    + exists (String c s). reflexivity.
    + exists d. cbn [String.append] in *. now rewrite <- IH.
  - exists d. cbn [String.append] in *. now rewrite <- IH.
Qed.

Lemma prefix_app_l sub a b : prefix sub a = true -> prefix sub (a ++ b) = true.
Proof.
  revert a. induction sub as [|x sub IH]; intros a.
  - intros _. now destruct (a ++ b).
  - destruct a as [|y a]; [discriminate|]. cbn [prefix String.append].
    destruct (ascii_dec x y); [apply IH|discriminate].
Qed.

Lemma contains_app_l sub a b :
  Str.contains sub a = true -> Str.contains sub (a ++ b) = true.
Proof.
  induction a as [|y a IH].
  - cbn [Str.contains]. rewrite orb_false_r. intros H.
    apply contains_prefix. now apply (prefix_app_l sub EmptyString b).
  - cbn [Str.contains String.append]. intros [H|H]%orb_true_iff.
    + pose proof (prefix_app_l sub (String y a) b H) as Hp.
      cbn [String.append] in Hp. now rewrite Hp.
    + rewrite (IH H). apply orb_true_r.
Qed.

Lemma strip_no_new sub p s :
  Str.contains sub s = false -> Str.contains sub (Str.strip_with p s) = false.
Proof.
  intros H. unfold Str.strip_with.
  destruct (lstrip_suffix p s) as [d1 H1].
  destruct (rstrip_prefix p (Str.lstrip_with p s)) as [d2 H2].
  destruct (Str.contains sub (Str.rstrip_with p (Str.lstrip_with p s))) eqn:Hc;
    [|reflexivity].
  apply (contains_app_l _ _ d2) in Hc. rewrite <- H2 in Hc.
  apply (contains_app_r _ d1) in Hc. rewrite <- H1 in Hc. congruence.
Qed.

(** X19: the part of the page name made from the query holds lower-case
    ASCII letters, digits and dashes only, with no dash at either end and
    no two dashes in a row, whatever the query. *)
Theorem url_query_is_slug (search_query : string) :
  all_chars slug_or_dash (url_query search_query) = true
  /\ first_is (Char.eq "-") (url_query search_query) = false
  /\ last_is (Char.eq "-") (url_query search_query) = false
  /\ Str.contains "--" (url_query search_query) = false.
Proof.
  unfold url_query. repeat split.
  - unfold Str.strip_with.
    apply all_chars_rstrip, all_chars_lstrip, sub_runs_keeps, sub_runs_slug.
  - apply rstrip_first, lstrip_first.
  - apply rstrip_last.
  - apply strip_no_new, sub_runs_single.
Qed.

Example url_query_examples :
  url_query "Condos in Boston, MA under $2 million!!" = "condos-in-boston-ma-under-2-million"
  /\ url_query "  --  " = EmptyString
  /\ url_query "3BR @ 12 Main St." = "3br-12-main-st".
Proof. repeat split; vm_compute; reflexivity. Qed.
